(** * Jobseeker API: the glue logic of [api.py]

    A shallow embedding of [get_gemini_parts], [run_full_job_search] and the
    [search_jobs] endpoint of [api.py], with the properties of the request /
    response contract proved about it.

    Python values are modelled as follows.
    - [str]: a sequence of Unicode code points ([list N]); [str.strip],
      [str.split], [str.join], [str.startswith], [str.endswith] and slicing
      are written out with CPython's behaviour.
    - [bytes]: [list byte].
    - [list] objects: references into a heap ([gmap loc (list part)]), so that
      [resume_parts[:]] (a copy) and [contents.append] (an update in place)
      are told apart.
    - exceptions, the heap, the remote AI service, and [print]: a state and
      error monad [M] over a [world]. *)

From Stdlib Require Import ZArith NArith List Ascii String Strings.Byte Lia Bool.
From stdpp Require Import base option list gmap.

Set Default Proof Using "Type".

(** ** Python [str] *)

Module Str.

(** A character is a Unicode code point. *)
Definition char : Type := N.
Definition str : Type := list char.

(** An ASCII literal of the source as a [str]. *)
Definition lit (s : string) : str := map N_of_ascii (list_ascii_of_string s).

Definition comma : char := 44%N.
Definition space : char := 32%N.
Definition newline : char := 10%N.
Definition backtick : char := 96%N.

(** [str.isspace] on one code point, the table of CPython's
    [_PyUnicode_IsWhitespace]. *)
Definition isspace (c : char) : bool :=
  ((9 <=? c) && (c <=? 13) || (28 <=? c) && (c <=? 32)
   || (c =? 133) || (c =? 160) || (c =? 5760)
   || (8192 <=? c) && (c <=? 8202)
   || (c =? 8232) || (c =? 8233) || (c =? 8239) || (c =? 8287)
   || (c =? 12288))%N.

(** [s.lstrip()], [s.rstrip()], [s.strip()] with no argument. *)
Fixpoint lstrip (s : str) : str :=
  match s with
  | [] => []
  | c :: s' => if isspace c then lstrip s' else s
  end.

Definition rstrip (s : str) : str := rev (lstrip (rev s)).

Definition strip (s : str) : str := rstrip (lstrip s).

(** [s.split(sep)] for a separator of one character, the way the source
    calls it ([split(",")]): every occurrence separates, and the result has
    one more piece than there are separators. *)
Fixpoint split (sep : char) (s : str) : list str :=
  match s with
  | [] => [[]]
  | c :: s' =>
      if (c =? sep)%N then [] :: split sep s'
      else match split sep s' with
           | [] => [[c]]
           | p :: ps => (c :: p) :: ps
           end
  end.

(** [sep.join(l)]. *)
Fixpoint join (sep : str) (l : list str) : str :=
  match l with
  | [] => []
  | [x] => x
  | x :: l' => x ++ sep ++ join sep l'
  end.

(** [s.startswith(p)] and [s.endswith(p)]. *)
Fixpoint startswith (s p : str) : bool :=
  match p, s with
  | [], _ => true
  | _ :: _, [] => false
  | a :: p', b :: s' => (a =? b)%N && startswith s' p'
  end.

Definition endswith (s p : str) : bool := startswith (rev s) (rev p).

(** An index of a slice against a sequence of length [len]: a negative index
    counts from the end, and both ends are clipped to the sequence. *)
Definition clip (len i : Z) : Z :=
  if (i <? 0)%Z then Z.max (len + i) 0 else Z.min i len.

(** [s[start:stop]]. *)
Definition slice (s : str) (start stop : Z) : str :=
  let len := Z.of_nat (length s) in
  let a := clip len start in
  let b := clip len stop in
  take (Z.to_nat (b - a)) (drop (Z.to_nat a) s).

(** Truth value of a [str] or of any sequence: not empty. *)
Definition truthy {A} (s : list A) : bool :=
  match s with [] => false | _ :: _ => true end.

End Str.

Import Str.

(** ** Data of the program *)

Definition bytes : Type := list byte.

(** [types.Part]: inline binary data tagged with a media type
    ([types.Part.from_bytes]) or plain text ([types.Part.from_text]). *)
Inductive part : Type :=
| PartBytes (data : bytes) (mime_type : str)
| PartText (text : str).

Definition is_bytes_part (p : part) : bool :=
  match p with PartBytes _ _ => true | PartText _ => false end.

(** The tools a request may enable; the source names one. *)
Inductive tool : Type := google_search.

(** The [config] dictionary of the second call. *)
Record config : Type := Config {
  tools : list tool;
  response_mime_type : str;
  system_instruction : str;
}.

(** One call of [client.models.generate_content], as the service sees it. *)
Record request : Type := Request {
  model : str;
  contents : list part;
  request_config : option config;
}.

(** A Python exception that [except Exception] catches: its class name and
    [str(e)]. *)
Record exn : Type := Exn { exn_class : str; exn_str : str }.

(** What the service does with a call: it answers, with a response whose
    [.text] is a string or [None], or the call raises. *)
Inductive reply : Type :=
| Reply (text : option str)
| Fails (e : exn).

(** [UploadFile]: what [await resume_file.read()] does and the declared media
    type. *)
Inductive read_result : Type :=
| ReadOk (data : bytes)
| ReadFails (e : exn).

Record UploadFile : Type := Upload {
  read : read_result;
  content_type : str;
}.

(** The dictionary that [run_full_job_search] returns; [results] is whatever
    [json.loads] produced. *)
Record search_data (J : Type) : Type := SearchData {
  search_query : str;
  keywords : list str;
  results : J;
}.
Arguments SearchData {J} _ _ _.
Arguments search_query {J} _.
Arguments keywords {J} _.
Arguments results {J} _.

(** The body of a [JSONResponse]. *)
Inductive content (J : Type) : Type :=
| MessageContent (message : str)
| SearchContent (d : search_data J).
Arguments MessageContent {J} _.
Arguments SearchContent {J} _.

(** How [search_jobs] ends: it returns a [JSONResponse], or it raises an
    [HTTPException], which the framework turns into a response with that
    status and the detail as its only content. *)
Inductive outcome (J : Type) : Type :=
| JSONResponse (status_code : Z) (body : content J)
| HTTPException (status_code : Z) (detail : str).
Arguments JSONResponse {J} _ _.
Arguments HTTPException {J} _ _.

(** ** The world: heap of list objects, the remote service, standard output *)

Definition loc : Type := positive.

Record world : Type := World {
  heap : gmap positive (list part);
  service : nat -> request -> reply;
  calls : list request;
  stdout : list str;
}.

Definition set_heap (h : gmap positive (list part)) (w : world) : world :=
  World h (service w) (calls w) (stdout w).
Definition add_call (r : request) (w : world) : world :=
  World (heap w) (service w) (calls w ++ [r]) (stdout w).
Definition add_line (s : str) (w : world) : world :=
  World (heap w) (service w) (calls w) (stdout w ++ [s]).

(** The elements of the list object at [l]. Python cannot form a dangling
    reference; here one reads as the empty list. *)
Definition deref (w : world) (l : loc) : list part := default [] (heap w !! l).

(** ** Exceptions and state *)

Inductive res (A : Type) : Type :=
| Ok (a : A)
| Raise (e : exn).
Arguments Ok {A} _.
Arguments Raise {A} _.

Definition M (A : Type) : Type := world -> res A * world.

Definition ret {A} (a : A) : M A := fun w => (Ok a, w).

Definition raise {A} (e : exn) : M A := fun w => (Raise e, w).

Definition bind {A B} (m : M A) (k : A -> M B) : M B :=
  fun w =>
    match m w with
    | (Ok a, w') => k a w'
    | (Raise e, w') => (Raise e, w')
    end.

(** [try: m  except Exception as e: h e]. *)
Definition try_except {A} (m : M A) (h : exn -> M A) : M A :=
  fun w =>
    match m w with
    | (Ok a, w') => (Ok a, w')
    | (Raise e, w') => h e w'
    end.

Notation "'let*' x ':=' m 'in' k" := (bind m (fun x => k))
  (at level 10, x name, m at level 100, k at level 200).

(** A result or exception as a computation. *)
Definition lift {A} (r : res A) : M A := fun w => (r, w).

(** A list display [[x; ...]]: a new list object. *)
Definition new_list (xs : list part) : M loc :=
  fun w =>
    let l := fresh (dom (heap w)) in
    (Ok l, set_heap (<[l := xs]> (heap w)) w).

(** [l[:]]: a new list object with the same elements. *)
Definition list_copy (l : loc) : M loc :=
  fun w => new_list (deref w l) w.

(** [l.append(x)]: the object at [l] is updated in place. *)
Definition list_append (l : loc) (x : part) : M unit :=
  fun w => (Ok tt, set_heap (alter (fun xs => xs ++ [x]) l (heap w)) w).

(** [client.models.generate_content(model=..., contents=..., config=...)]:
    the request is sent with the elements [contents] has at that moment, and
    the service answers the n-th call it receives as [service] says. The
    result is the response's [.text]. *)
Definition generate_content (m : str) (cts : loc) (cfg : option config)
  : M (option str) :=
  fun w =>
    let req := Request m (deref w cts) cfg in
    match service w (length (calls w)) req with
    | Reply t => (Ok t, add_call req w)
    | Fails e => (Raise e, add_call req w)
    end.

(** Calling method [meth] of [response.text]: an [AttributeError] when the
    text is [None]. *)
Definition method_of (t : option str) (meth : str) : M str :=
  match t with
  | Some s => ret s
  | None =>
      raise (Exn (lit "AttributeError")
                 (lit "'NoneType' object has no attribute '" ++ meth ++ lit "'"))
  end.

(** [print(line)]. *)
Definition print (line : str) : M unit := fun w => (Ok tt, add_line line w).

(** [await resume_file.read()]. *)
Definition upload_read (f : UploadFile) : M bytes :=
  match read f with
  | ReadOk data => ret data
  | ReadFails e => raise e
  end.

(** ** The program *)

Definition dquote : char := 34%N.

Definition fence : str := lit "```".
Definition json_fence : str := lit "```json".

(** [get_gemini_parts(file_bytes, mime_type)]. *)
Definition get_gemini_parts (file_bytes : bytes) (mime_type : str) : M loc :=
  if truthy file_bytes then new_list [PartBytes file_bytes mime_type]
  else new_list [].

(** The f-string [text_prompt] of [run_full_job_search]. *)
Definition text_prompt (job_role qualification location custom_keywords : str)
  : str :=
  [newline] ++
  lit "    You are a job AI assistant. Your task is to extract skills and experiences from the provided RESUME (if available) and combine them with the user's explicit inputs below." ++
  [newline] ++
  lit "    User Input: Job Role: " ++
  job_role ++
  lit ", Qualification: " ++
  qualification ++
  lit ", Location: " ++
  location ++
  lit ", Custom Keywords: " ++
  custom_keywords ++
  [newline] ++
  lit "    Analyze the resume for relevant technical skills, past job titles, and industry focus. Generate a comprehensive, comma-separated list of related keywords and roles for the final search query." ++
  [newline] ++
  lit "    Return ONLY the comma-separated keywords and roles, no explanation." ++
  [newline] ++
  lit "    ".

(** [[k.strip() for k in text.split(",") if k.strip()]]. *)
Definition keywords_list (text : str) : list str :=
  flat_map (fun k => if truthy (strip k) then [strip k] else [])
           (split comma text).

(** [" ".join(keywords_list + [qualification, location])]. *)
Definition make_search_query (kws : list str) (qualification location : str)
  : str :=
  join (lit " ") (kws ++ [qualification; location]).

(** The f-string [search_analysis_prompt]. *)
Definition search_analysis_prompt (query : str) : str :=
  [newline] ++
  lit "    Based on the refined search query: " ++
  [dquote] ++
  query ++
  [dquote] ++
  lit ", use the Google Search tool to find the top 5 most relevant job postings." ++
  [newline] ++
  lit "    For each posting found, extract the 'title', the 'link', and the original search 'snippet'. " ++
  [newline] ++
  lit "    Then, for each posting, perform a secondary analysis to extract these three key points into a JSON sub-object named 'analysis':" ++
  [newline] ++
  lit "    1.  Type: (e.g., Full-time, Remote)" ++
  [newline] ++
  lit "    2.  Requirement: (The single most essential skill)" ++
  [newline] ++
  lit "    3.  USP: (Unique Selling Point of the job or company)" ++
  [newline] ++
  lit "    Return the final, structured list of jobs as a strict JSON array." ++
  [newline] ++
  lit "    ".

Definition model_name : str := lit "gemini-2.5-flash".

Definition search_config : config :=
  {| tools := [google_search];
     response_mime_type := lit "application/json";
     system_instruction := lit "You are a specialized job search tool that strictly outputs a JSON array containing job objects. Each job object must include a nested 'analysis' object with Type, Requirement, and USP fields." |}.

(** Step 3 up to [json.loads]: the text of the second response, stripped,
    and without its code fence when it has one. *)
Definition clean_text (raw : str) : str :=
  let text := strip raw in
  if startswith text json_fence && endswith text fence then
    strip (slice text 7 (-3))
  else if startswith text fence && endswith text fence then
    strip (slice text 3 (-3))
  else text.

(** The detail of the [HTTPException] that [search_jobs] raises. *)
Definition failure_detail : str :=
  lit "The AI search service failed to process the request. Try refining your query.".

Section Program.

(** [json.loads], of Python's standard library: a value or an exception
    ([JSONDecodeError], [RecursionError]). *)
Context {J : Type} (loads : str -> res J).

(** Building [JSONResponse(content=search_data)]: the response class writes
    its content out when it is built ([json.dumps] with [allow_nan=False],
    then UTF-8) and raises on search data it cannot write, such as a NaN or
    an infinite number among the results or a lone surrogate in a text. The
    content of the early return of line 123 is one message, the text of the
    read's exception, and is taken to be written without error. *)
Context (render : search_data J -> res unit).

(** [run_full_job_search(job_role, qualification, location, custom_keywords,
    resume_parts)]. *)
Definition run_full_job_search
    (job_role qualification location custom_keywords : str)
    (resume_parts : loc) : M (search_data J) :=
  let prompt := text_prompt job_role qualification location custom_keywords in
  let* contents := list_copy resume_parts in
  let* _ := list_append contents (PartText prompt) in
  let* keyword_response := generate_content model_name contents None in
  let* keyword_text := method_of keyword_response (lit "split") in
  let kws := keywords_list keyword_text in
  let query := make_search_query kws qualification location in
  let* final_contents := new_list [PartText (search_analysis_prompt query)] in
  let* final_response :=
    generate_content model_name final_contents (Some search_config) in
  let* final_text := method_of final_response (lit "strip") in
  let* parsed := lift (loads (clean_text final_text)) in
  ret (SearchData query kws parsed).

(** How the file stage of [search_jobs] ends: with the list for the
    orchestrator, or with the response of the early [return]. *)
Inductive file_stage : Type :=
| Parts (resume_parts : loc)
| Early (o : outcome J).

(** [search_jobs(job_role, qualification, location, custom_keywords,
    resume_file)]; [resume_file] is [None] when the form has no file. *)
Definition search_jobs
    (job_role qualification location custom_keywords : str)
    (resume_file : option UploadFile) : M (outcome J) :=
  let* resume_parts := new_list [] in
  let* stage :=
    match resume_file with
    | Some f =>
        try_except
          (let* file_bytes := upload_read f in
           let mime_type := content_type f in
           let* parts := get_gemini_parts file_bytes mime_type in
           ret (Parts parts))
          (fun e =>
             ret (Early (JSONResponse 500
                    (MessageContent (lit "File reading failed: " ++ exn_str e)))))
    | None => ret (Parts resume_parts)
    end in
  match stage with
  | Early o => ret o
  | Parts resume_parts =>
      try_except
        (let* data :=
           run_full_job_search job_role qualification location custom_keywords
                               resume_parts in
         let* _ := lift (render data) in
         ret (JSONResponse 200 (SearchContent data)))
        (fun e =>
           let* _ := print (lit "Gemini/Search Error: " ++ exn_str e) in
           ret (HTTPException 500 failure_detail))
  end.

End Program.

(** ** Vocabulary of the statements *)

(** A text with no whitespace at either end. *)
Definition trimmed (s : str) : Prop :=
  (forall c, head s = Some c -> isspace c = false) /\
  (forall c, last s = Some c -> isspace c = false).

Definition blank (s : str) : Prop := Forall (fun c => isspace c = true) s.

(** The request of step 1, for the elements [parts] of [resume_parts]
    (lines 54 to 59). *)
Definition keyword_request (parts : list part)
    (job_role qualification location custom_keywords : str) : request :=
  Request model_name
    (parts ++ [PartText (text_prompt job_role qualification location
                                     custom_keywords)])
    None.

(** The request of step 2 (lines 76 to 87). *)
Definition search_request (query : str) : request :=
  Request model_name [PartText (search_analysis_prompt query)]
          (Some search_config).

(** What the file stage of [search_jobs] (lines 116 to 123) hands to the
    orchestrator, or the exception of the read. *)
Definition file_parts (resume_file : option UploadFile) : res (list part) :=
  match resume_file with
  | None => Ok []
  | Some f =>
      match read f with
      | ReadOk data =>
          Ok (if truthy data then [PartBytes data (content_type f)] else [])
      | ReadFails e => Raise e
      end
  end.

(** The line that [search_jobs] prints for a caught exception. *)
Definition log_line (e : exn) : str := lit "Gemini/Search Error: " ++ exn_str e.

(** The [AttributeError] of a method call on [None]. *)
Definition none_error (meth : str) : exn :=
  Exn (lit "AttributeError")
      (lit "'NoneType' object has no attribute '" ++ meth ++ lit "'").

(** Step 3 with the fences removed and nothing else: the trimmed text less
    exactly its 7 first and 3 last characters, or its 3 first and 3 last, or
    unchanged. The source trims once more ([clean_text]). *)
Definition clean_text_fences_only (raw : str) : str :=
  let text := strip raw in
  if startswith text json_fence && endswith text fence then
    slice text 7 (-3)
  else if startswith text fence && endswith text fence then
    slice text 3 (-3)
  else text.

(** [w'] is [w] after the requests [sent] and the printed lines [printed]:
    the same service, the calls and the output extended, and every list
    object of [w] as it was. *)
Definition extends (w w' : world) (sent : list request) (printed : list str)
  : Prop :=
  service w' = service w /\
  calls w' = calls w ++ sent /\
  stdout w' = stdout w ++ printed /\
  (forall l xs, heap w !! l = Some xs -> heap w' !! l = Some xs).

(** ** Stand-ins for the examples *)

(** A service that answers its first call with [first] and every later one
    with [second], whatever the request. *)
Definition scripted_service (first second : reply) : nat -> request -> reply :=
  fun n _ => match n with O => first | S _ => second end.

Definition fresh_world (svc : nat -> request -> reply) : world :=
  World ∅ svc [] [].

(** A decoder that knows one document, the empty array. *)
Inductive sample_json : Type := EmptyArray.

Definition sample_loads (s : str) : res sample_json :=
  if bool_decide (s = lit "[]") then Ok EmptyArray
  else Raise (Exn (lit "JSONDecodeError") (lit "Expecting value")).

(** The empty array can always be written out. *)
Definition sample_render (d : search_data sample_json) : res unit := Ok tt.

(** A writer that refuses, as [json.dumps] does for a NaN. *)
Definition refusing_render (d : search_data sample_json) : res unit :=
  Raise (Exn (lit "ValueError")
             (lit "Out of range float values are not JSON compliant")).

(** A world with one list object, at address 1, holding [parts]. *)
Definition world_with (parts : list part) (svc : nat -> request -> reply)
  : world :=
  World {[1%positive := parts]} svc [] [].

(** The second answer of the samples: the empty array in a [json] fence,
    on lines of its own. *)
Definition fenced_answer : str :=
  json_fence ++ [newline] ++ lit "[]" ++ [newline] ++ fence.

(** A service whose answers are as wished ... *)
Definition good_service : nat -> request -> reply :=
  scripted_service (Reply (Some (lit "Python, Remote, Backend")))
                   (Reply (Some fenced_answer)).

(** ... one whose second answer is not JSON ... *)
Definition prose_service : nat -> request -> reply :=
  scripted_service (Reply (Some (lit "Python,, Remote,")))
                   (Reply (Some (lit "Here are some jobs"))).

(** ... and one whose first call raises. *)
Definition quota_error : exn := Exn (lit "ClientError") (lit "429 quota").

Definition down_service : nat -> request -> reply :=
  scripted_service (Fails quota_error) (Fails quota_error).

Definition pdf_file : UploadFile :=
  Upload (ReadOk [x25; x50; x44; x46]) (lit "application/pdf").

Definition empty_file : UploadFile :=
  Upload (ReadOk []) (lit "application/pdf").

Definition unreadable_file : UploadFile :=
  Upload (ReadFails (Exn (lit "OSError") (lit "read failed")))
         (lit "application/pdf").

(** * Properties *)

(** ** [str] methods *)

Section StrFacts.

Implicit Types (s p k l r : str) (c sep : char).

Lemma lstrip_split s : exists l, s = l ++ lstrip s /\ blank l.
Proof.
  induction s as [|a s IH]; simpl.
  - exists []. split; [reflexivity | constructor].
  - destruct (isspace a) eqn:Ha.
    + destruct IH as (l & Hl & Hb). exists (a :: l). split.
      * simpl. now f_equal.
      * now constructor.
    + exists []. split; [reflexivity | constructor].
Qed.

Lemma lstrip_head s c : head (lstrip s) = Some c -> isspace c = false.
Proof.
  induction s as [|a s IH]; simpl; [discriminate|].
  destruct (isspace a) eqn:Ha; [assumption|].
  simpl. now intros [= <-].
Qed.

Lemma lstrip_blank_app l s : blank l -> lstrip (l ++ s) = lstrip s.
Proof.
  induction 1 as [|a l Ha _ IH]; simpl; [reflexivity|]. now rewrite Ha.
Qed.

Lemma lstrip_blank l : blank l -> lstrip l = [].
Proof.
  intros H. rewrite <- (app_nil_r l). now rewrite lstrip_blank_app.
Qed.

Lemma lstrip_id s :
  (forall c, head s = Some c -> isspace c = false) -> lstrip s = s.
Proof.
  destruct s as [|a s]; simpl; [reflexivity|].
  intros H. now rewrite (H a eq_refl).
Qed.

Lemma last_rev s : last (rev s) = head s.
Proof.
  destruct s as [|a s]; simpl; [reflexivity|]. apply last_snoc.
Qed.

Lemma head_rev s : head (rev s) = last s.
Proof. rewrite <- (rev_involutive s) at 2. now rewrite last_rev. Qed.

Lemma blank_rev l : blank l -> blank (rev l).
Proof. apply Forall_rev. Qed.

Lemma rstrip_split s : exists r, s = rstrip s ++ r /\ blank r.
Proof.
  destruct (lstrip_split (rev s)) as (l & Hl & Hb).
  exists (rev l). split; [|now apply blank_rev].
  unfold rstrip. rewrite <- rev_app_distr, <- Hl. now rewrite rev_involutive.
Qed.

Lemma rstrip_last s c : last (rstrip s) = Some c -> isspace c = false.
Proof. unfold rstrip. rewrite last_rev. apply lstrip_head. Qed.

Lemma rstrip_head s c : head (rstrip s) = Some c -> head s = Some c.
Proof.
  destruct (rstrip_split s) as (r & Hr & _). intros H.
  rewrite Hr. destruct (rstrip s); [discriminate | exact H].
Qed.

Lemma rstrip_blank_app s r : blank r -> rstrip (s ++ r) = rstrip s.
Proof.
  intros H. unfold rstrip. rewrite rev_app_distr.
  rewrite lstrip_blank_app; [reflexivity | now apply blank_rev].
Qed.

Lemma rstrip_id s :
  (forall c, last s = Some c -> isspace c = false) -> rstrip s = s.
Proof.
  intros H. unfold rstrip. rewrite lstrip_id; [apply rev_involutive|].
  intros c. rewrite head_rev. apply H.
Qed.

(** [strip] leaves no whitespace at either end ... *)
Lemma strip_trimmed s : trimmed (strip s).
Proof.
  split; intros c H.
  - apply (lstrip_head s). now apply rstrip_head.
  - now apply (rstrip_last (lstrip s)).
Qed.

(** ... and removes whitespace only, from the two ends. *)
Lemma strip_split s : exists l r, s = l ++ strip s ++ r /\ blank l /\ blank r.
Proof.
  destruct (lstrip_split s) as (l & Hl & Hbl).
  destruct (rstrip_split (lstrip s)) as (r & Hr & Hbr).
  exists l, r. unfold strip. now rewrite <- Hr.
Qed.

(** [strip s] is the only text with these two properties. *)
Lemma strip_unique l k r :
  blank l -> blank r -> trimmed k -> strip (l ++ k ++ r) = k.
Proof.
  intros Hl Hr [Hh Ht]. unfold strip. rewrite lstrip_blank_app by assumption.
  destruct k as [|a k].
  - simpl. rewrite lstrip_blank by assumption. reflexivity.
  - rewrite lstrip_id.
    + rewrite rstrip_blank_app by assumption. now apply rstrip_id.
    + intros c. simpl. apply Hh.
Qed.

Lemma strip_of_trimmed k : trimmed k -> strip k = k.
Proof.
  intros H. rewrite <- (app_nil_r k) at 1.
  apply (strip_unique [] k []); [constructor | constructor | exact H].
Qed.

Lemma split_not_nil sep s : split sep s <> [].
Proof.
  destruct s as [|a s]; simpl; [discriminate|].
  destruct (a =? sep)%N; [discriminate|]. now destruct (split sep s).
Qed.

Lemma join_cons (sp x : str) (l : list str) :
  l <> [] -> join sp (x :: l) = x ++ sp ++ join sp l.
Proof. destruct l; [congruence | reflexivity]. Qed.

(** Joining the pieces with the separator gives the text back. *)
Lemma join_split sep s : join [sep] (split sep s) = s.
Proof.
  induction s as [|a s IH]; simpl; [reflexivity|].
  destruct (N.eqb_spec a sep) as [->|Hne].
  - rewrite join_cons by apply split_not_nil. simpl. now rewrite IH.
  - pose proof (split_not_nil sep s) as Hnn.
    destruct (split sep s) as [|p ps]; [congruence|].
    destruct ps as [|q ps]; simpl in *; now rewrite <- IH.
Qed.

(** No piece contains the separator. *)
Lemma split_no_sep sep s : Forall (fun p => sep ∉ p) (split sep s).
Proof.
  induction s as [|a s IH]; simpl.
  - constructor; [apply not_elem_of_nil | constructor].
  - destruct (N.eqb_spec a sep) as [->|Hne].
    + constructor; [apply not_elem_of_nil | exact IH].
    + destruct (split sep s) as [|p ps].
      * constructor; [|constructor].
        rewrite elem_of_cons. intros [->|H]; [congruence|].
        now apply not_elem_of_nil in H.
      * inversion IH as [|? ? Hp Hps]; subst. constructor; [|exact Hps].
        rewrite elem_of_cons. intros [->|H]; [congruence | contradiction].
Qed.

(** The pieces are the only such sequence. *)
Lemma split_join sep (ps : list str) :
  ps <> [] -> Forall (fun p => sep ∉ p) ps -> split sep (join [sep] ps) = ps.
Proof.
  induction ps as [|p ps IH]; [congruence|]. intros _ H.
  inversion H as [|? ? Hp Hps]; subst.
  destruct ps as [|q ps].
  - simpl. clear IH H Hps. induction p as [|a p IHp]; [reflexivity|].
    simpl. destruct (N.eqb_spec a sep) as [->|Hne].
    + exfalso. apply Hp. apply elem_of_cons. now left.
    + rewrite IHp; [reflexivity|].
      intros Hin. apply Hp. apply elem_of_cons. now right.
  - rewrite join_cons by discriminate.
    specialize (IH ltac:(discriminate) Hps). clear H Hps.
    remember (join [sep] (q :: ps)) as rest eqn:E. clear E.
    induction p as [|a p IHp].
    + simpl. rewrite N.eqb_refl. now rewrite IH.
    + simpl. destruct (N.eqb_spec a sep) as [->|Hne].
      * exfalso. apply Hp. apply elem_of_cons. now left.
      * simpl in IHp. rewrite IHp; [reflexivity|].
        intros Hin. apply Hp. apply elem_of_cons. now right.
Qed.

Example strip_example :
  strip (space :: 9%N :: lit "a b" ++ [newline; 160%N]) = lit "a b".
Proof. reflexivity. Qed.

Example split_example :
  split comma (lit "a,,b,") = [lit "a"; lit ""; lit "b"; lit ""].
Proof. reflexivity. Qed.

Example split_empty : split comma [] = [[]].
Proof. reflexivity. Qed.

Example join_example :
  join (lit " ") [lit "a"; lit "b"; lit "c"] = lit "a b c".
Proof. reflexivity. Qed.

Example slice_example : slice (lit "```json[1]```") 7 (-3) = lit "[1]".
Proof. reflexivity. Qed.

Example slice_overlap : slice (lit "`````") 3 (-3) = [].
Proof. reflexivity. Qed.

End StrFacts.

Section FenceFacts.

Implicit Types (s p q t body : str).

Lemma startswith_spec s p : startswith s p = true <-> exists r, s = p ++ r.
Proof.
  revert s. induction p as [|a p IH]; intros s; simpl.
  - split; [intros _; now exists s | intros _; now destruct s].
  - destruct s as [|b s]; simpl.
    + split; [discriminate | intros [r Hr]; discriminate].
    + rewrite andb_true_iff, N.eqb_eq, IH. split.
      * intros [-> [r ->]]. now exists r.
      * intros [r [= -> ->]]. split; [reflexivity | now exists r].
Qed.

Lemma endswith_spec s p : endswith s p = true <-> exists r, s = r ++ p.
Proof.
  unfold endswith. rewrite startswith_spec. split; intros [r Hr].
  - exists (rev r). apply (f_equal (@rev char)) in Hr.
    now rewrite rev_app_distr, !rev_involutive in Hr.
  - exists (rev r). rewrite Hr. apply rev_app_distr.
Qed.

(** A slice that drops a prefix and a non-empty suffix by their lengths. *)
Lemma slice_between p body q :
  (0 < length q)%nat ->
  slice (p ++ body ++ q) (Z.of_nat (length p)) (- Z.of_nat (length q)) = body.
Proof.
  intros Hq. unfold slice, clip. rewrite !length_app.
  destruct (Z.ltb_spec (Z.of_nat (length p)) 0) as [H|_]; [lia|].
  destruct (Z.ltb_spec (- Z.of_nat (length q)) 0) as [_|H]; [|lia].
  rewrite Z.min_l by lia. rewrite Z.max_l by lia.
  replace (Z.to_nat _) with (length body) by lia.
  rewrite Nat2Z.id, drop_app_length. apply take_app_length.
Qed.

(** A text that starts with [p] and ends with [q] and is long enough for
    both has a body between them. *)
Lemma between_form t p q :
  startswith t p = true -> endswith t q = true ->
  (length p + length q <= length t)%nat ->
  exists body, t = p ++ body ++ q.
Proof.
  rewrite startswith_spec, endswith_spec. intros [r Hr] [r' Hr'] Hlen.
  subst t. rewrite length_app in Hlen.
  pose (n := (length r - length q)%nat).
  assert (Hd : length (drop n r) = length q)
    by (rewrite length_drop; unfold n; lia).
  exists (take n r). f_equal.
  rewrite <- (take_drop n r) in Hr' at 1. rewrite app_assoc in Hr'.
  apply app_inj_2 in Hr' as [_ Hq]; [|exact Hd].
  rewrite <- Hq. now rewrite take_drop.
Qed.

Lemma json_fence_is_fence s :
  startswith s json_fence = true -> startswith s fence = true.
Proof.
  rewrite !startswith_spec. intros [r ->]. now exists (lit "json" ++ r).
Qed.

(** The opening [json] fence and the closing fence never overlap. *)
Lemma json_fenced_length t :
  startswith t json_fence = true -> endswith t fence = true ->
  (10 <= length t)%nat.
Proof.
  intros Hs He. apply startswith_spec in Hs as [r ->].
  destruct r as [|a [|b [|c r]]]; [exfalso..|simpl; lia];
    unfold endswith in He; simpl in He; rewrite ?andb_false_r in He;
    discriminate.
Qed.

Lemma json_fenced_form t :
  startswith t json_fence = true -> endswith t fence = true ->
  exists body, t = json_fence ++ body ++ fence.
Proof.
  intros Hs He. apply between_form; try assumption.
  pose proof (json_fenced_length t Hs He). simpl. lia.
Qed.

(** The plain fences overlap on three texts only. *)
Lemma fenced_form t :
  startswith t fence = true -> endswith t fence = true ->
  (exists body, t = fence ++ body ++ fence) \/
  t = lit "```" \/ t = lit "````" \/ t = lit "`````".
Proof.
  intros Hs He. destruct (le_lt_dec 6 (length t)) as [Hlen|Hlen].
  - left. now apply between_form.
  - right. apply startswith_spec in Hs as [r ->].
    apply endswith_spec in He as [r' He].
    change fence with [96%N; 96%N; 96%N] in *.
    destruct r as [|a [|b [|c r]]]; [| | |simpl in Hlen; lia].
    + now left.
    + right; left.
      repeat (destruct r' as [|? r']; simplify_eq/=; try reflexivity).
    + right; right.
      repeat (destruct r' as [|? r']; simplify_eq/=; try reflexivity).
Qed.

Lemma clean_text_json raw body :
  strip raw = json_fence ++ body ++ fence -> clean_text raw = strip body.
Proof.
  intros H. unfold clean_text. rewrite H.
  replace (startswith _ json_fence) with true
    by (symmetry; apply startswith_spec; eauto).
  replace (endswith _ fence) with true
    by (symmetry; apply endswith_spec; exists (json_fence ++ body);
        now rewrite <- app_assoc).
  simpl andb. cbv iota. f_equal.
  apply (slice_between json_fence body fence). simpl. lia.
Qed.

Lemma clean_text_plain raw body :
  startswith (strip raw) json_fence = false ->
  strip raw = fence ++ body ++ fence -> clean_text raw = strip body.
Proof.
  intros Hj H. unfold clean_text. rewrite Hj. rewrite H.
  replace (startswith _ fence) with true
    by (symmetry; apply startswith_spec; eauto).
  replace (endswith _ fence) with true
    by (symmetry; apply endswith_spec; exists (fence ++ body);
        now rewrite <- app_assoc).
  simpl andb. cbv iota. f_equal.
  apply (slice_between fence body fence). simpl. lia.
Qed.

Lemma clean_text_bare raw :
  startswith (strip raw) fence && endswith (strip raw) fence = false ->
  clean_text raw = strip raw.
Proof.
  intros H. unfold clean_text. rewrite H.
  destruct (startswith (strip raw) json_fence) eqn:Hj; [|reflexivity].
  apply json_fence_is_fence in Hj. rewrite Hj in H. simpl in H.
  now rewrite H.
Qed.

Lemma clean_text_overlap raw :
  strip raw = lit "```" \/ strip raw = lit "````" \/ strip raw = lit "`````" ->
  clean_text raw = [].
Proof.
  unfold clean_text. now intros [-> | [-> | ->]].
Qed.

End FenceFacts.

Section KeywordFacts.

Lemma keywords_list_filter (text : str) :
  keywords_list text =
  filter (fun k : str => k <> []) (strip <$> split comma text).
Proof.
  unfold keywords_list. induction (split comma text) as [|p ps IH].
  - reflexivity.
  - cbn [flat_map fmap list_fmap]. rewrite filter_cons, IH.
    destruct (strip p) as [|c k]; destruct (decide _) as [H|H]; simpl;
      try reflexivity; [congruence | exfalso; apply H; discriminate].
Qed.

Lemma keywords_list_trimmed (text : str) :
  Forall (fun k => k <> [] /\ trimmed k) (keywords_list text).
Proof.
  rewrite keywords_list_filter. apply Forall_forall. intros k Hk.
  apply list_elem_of_filter in Hk as [Hne Hin].
  split; [exact Hne|].
  apply list_elem_of_fmap in Hin as (p & -> & _). apply strip_trimmed.
Qed.

Lemma join_app (sp : str) (ks rest : list str) :
  ks <> [] -> rest <> [] ->
  join sp (ks ++ rest) = join sp ks ++ sp ++ join sp rest.
Proof.
  induction ks as [|k ks IH]; [congruence|]. intros _ Hr.
  destruct ks as [|k' ks].
  - change ([k] ++ rest) with (k :: rest). now rewrite join_cons.
  - change ((k :: k' :: ks) ++ rest) with (k :: ((k' :: ks) ++ rest)).
    rewrite (join_cons sp k ((k' :: ks) ++ rest)) by discriminate.
    rewrite IH by (discriminate || assumption).
    rewrite (join_cons sp k (k' :: ks)) by discriminate.
    now rewrite <- !app_assoc.
Qed.

(** With at least one keyword, the query is the keywords, the qualification
    and the location, each set off by one space. *)
Lemma make_search_query_app (kws : list str) (q l : str) :
  kws <> [] ->
  make_search_query kws q l = join (lit " ") kws ++ lit " " ++ q ++ lit " " ++ l.
Proof.
  intros H. unfold make_search_query. now rewrite join_app.
Qed.

Lemma make_search_query_nil (q l : str) :
  make_search_query [] q l = q ++ lit " " ++ l.
Proof. reflexivity. Qed.

End KeywordFacts.

(** ** The heap and the primitives *)

Section HeapFacts.

Implicit Types (w : world) (h : gmap positive (list part)) (xs : list part).

Lemma fresh_unused h : h !! fresh (dom h) = None.
Proof. apply not_elem_of_dom, is_fresh. Qed.

Lemma insert_fresh_frame h xs l ys :
  h !! l = Some ys -> <[fresh (dom h) := xs]> h !! l = Some ys.
Proof.
  intros H. rewrite lookup_insert_ne; [exact H|].
  intros <-. rewrite fresh_unused in H. discriminate.
Qed.

Lemma deref_set_heap_insert w h l xs :
  deref (set_heap (<[l := xs]> h) w) l = xs.
Proof. unfold deref. simpl. now rewrite lookup_insert_eq. Qed.

(** [append] changes the list object it is called on. *)
Lemma list_append_updates l x w xs :
  heap w !! l = Some xs ->
  heap (snd (list_append l x w)) !! l = Some (xs ++ [x]).
Proof. intros H. simpl. rewrite lookup_alter_eq, H. reflexivity. Qed.

(** ... and no other. *)
Lemma list_append_frame l x w l' :
  l' <> l -> heap (snd (list_append l x w)) !! l' = heap w !! l'.
Proof. intros H. simpl. now rewrite lookup_alter_ne. Qed.

(** A copy is a new object with the same elements; the original stays. *)
Lemma list_copy_fresh l w :
  exists c, list_copy l w = (Ok c, set_heap (<[c := deref w l]> (heap w)) w) /\
            heap w !! c = None.
Proof. exists (fresh (dom (heap w))). split; [reflexivity | apply fresh_unused]. Qed.

Lemma extends_refl w : extends w w [] [].
Proof. unfold extends. now rewrite !app_nil_r. Qed.

Lemma extends_trans w1 w2 w3 s1 s2 p1 p2 :
  extends w1 w2 s1 p1 -> extends w2 w3 s2 p2 ->
  extends w1 w3 (s1 ++ s2) (p1 ++ p2).
Proof.
  intros (Hs1 & Hc1 & Ho1 & Hh1) (Hs2 & Hc2 & Ho2 & Hh2). repeat split.
  - congruence.
  - rewrite Hc2, Hc1. now rewrite app_assoc.
  - rewrite Ho2, Ho1. now rewrite app_assoc.
  - auto.
Qed.

Lemma extends_new_list w xs :
  extends w (snd (new_list xs w)) [] [].
Proof.
  repeat split; simpl; rewrite ?app_nil_r; try reflexivity.
  intros l ys H. now apply insert_fresh_frame.
Qed.

Lemma extends_add_line w s : extends w (add_line s w) [] [s].
Proof. repeat split; simpl; rewrite ?app_nil_r; auto. Qed.

End HeapFacts.

(** ** The orchestrator and the handler, case by case *)

Section ProgramFacts.

Context {J : Type} (loads : str -> res J) (render : search_data J -> res unit).

Implicit Types (w : world) (rp : loc).

Lemma generate_content_run m c cfg w :
  generate_content m c cfg w =
  (match service w (length (calls w)) (Request m (deref w c) cfg) with
   | Reply t => Ok t
   | Fails e => Raise e
   end, add_call (Request m (deref w c) cfg) w).
Proof. unfold generate_content. now destruct (service w _ _). Qed.

(** Every way [run_full_job_search] can go, by what the service answers and
    what [json.loads] makes of the second answer. *)
Lemma run_full_job_search_cases jr q l ck rp w :
  let n := length (calls w) in
  let req1 := keyword_request (deref w rp) jr q l ck in
  let run := run_full_job_search loads jr q l ck rp w in
  exists w1, extends w w1 [req1] [] /\
  match service w n req1 with
  | Fails e => run = (Raise e, w1)
  | Reply None => run = (Raise (none_error (lit "split")), w1)
  | Reply (Some t1) =>
      let kws := keywords_list t1 in
      let query := make_search_query kws q l in
      let req2 := search_request query in
      exists w2, extends w w2 [req1; req2] [] /\
      match service w (S n) req2 with
      | Fails e => run = (Raise e, w2)
      | Reply None => run = (Raise (none_error (lit "strip")), w2)
      | Reply (Some t2) =>
          match loads (clean_text t2) with
          | Ok j => run = (Ok (SearchData query kws j), w2)
          | Raise e => run = (Raise e, w2)
          end
      end
  end.
Proof.
  intros n req1 run.
  set (c := fresh (dom (heap w))).
  set (h1 := <[c := deref w rp ++ [PartText (text_prompt jr q l ck)]]> (heap w)).
  assert (E1 : extends w (add_call req1 (set_heap h1 w)) [req1] []).
  { repeat split; simpl; rewrite ?app_nil_r; try reflexivity.
    intros l' xs H. now apply insert_fresh_frame. }
  exists (add_call req1 (set_heap h1 w)). split; [exact E1|].
  assert (Hrun : run =
    bind (generate_content model_name c None)
      (fun keyword_response =>
         let* keyword_text := method_of keyword_response (lit "split") in
         let kws := keywords_list keyword_text in
         let query := make_search_query kws q l in
         let* final_contents :=
           new_list [PartText (search_analysis_prompt query)] in
         let* final_response :=
           generate_content model_name final_contents (Some search_config) in
         let* final_text := method_of final_response (lit "strip") in
         let* parsed := lift (loads (clean_text final_text)) in
         ret (SearchData query kws parsed)) (set_heap h1 w)).
  { unfold run, run_full_job_search, bind at 1 2.
    unfold list_copy, new_list, list_append. cbv beta iota zeta.
    f_equal. unfold set_heap. cbn [heap service calls stdout].
    fold c. now rewrite alter_insert_eq. }
  clearbody run. unfold bind at 1 in Hrun.
  rewrite generate_content_run in Hrun.
  assert (Hd : deref (set_heap h1 w) c =
               deref w rp ++ [PartText (text_prompt jr q l ck)])
    by apply deref_set_heap_insert.
  rewrite Hd in Hrun. clear Hd. cbn [service calls set_heap] in Hrun.
  change (Request model_name _ None) with req1 in Hrun. fold n in Hrun.
  destruct (service w n req1) as [[t1|]|e]; [|exact Hrun..].
  cbv zeta. cbn [method_of] in Hrun.
  unfold bind at 1, ret at 1 in Hrun. unfold bind at 1 in Hrun.
  unfold new_list at 1 in Hrun.
  set (w1 := add_call req1 _) in *.
  set (query := make_search_query (keywords_list t1) q l) in *.
  set (c2 := fresh (dom (heap w1))) in *.
  set (h2 := <[c2 := [PartText (search_analysis_prompt query)]]> (heap w1)) in *.
  exists (add_call (search_request query) (set_heap h2 w1)). split.
  { apply (extends_trans w w1 _ [req1] [search_request query] [] []);
      [exact E1|].
    repeat split; simpl; rewrite ?app_nil_r; try reflexivity.
    intros l' xs H. now apply insert_fresh_frame. }
  unfold bind at 1 in Hrun. rewrite generate_content_run in Hrun.
  assert (Hd : deref (set_heap h2 w1) c2 =
               [PartText (search_analysis_prompt query)])
    by apply deref_set_heap_insert.
  rewrite Hd in Hrun. clear Hd.
  assert (Hn : length (calls (set_heap h2 w1)) = S n)
    by (simpl; rewrite length_app; simpl; unfold n; lia).
  rewrite Hn in Hrun. clear Hn.
  change (service (set_heap h2 w1)) with (service w) in Hrun.
  change (Request model_name _ (Some search_config))
    with (search_request query) in Hrun.
  destruct (service w (S n) (search_request query)) as [[t2|]|e];
    [|exact Hrun..].
  cbn [method_of] in Hrun. unfold bind, ret, lift in Hrun.
  now destruct (loads (clean_text t2)).
Qed.

(** Whatever happens, the orchestrator sends at least the first request,
    prints nothing, and leaves the list objects it was given as they were. *)
Lemma run_full_job_search_extends jr q l ck rp w :
  exists r rest w',
    run_full_job_search loads jr q l ck rp w = (r, w') /\
    extends w w' (keyword_request (deref w rp) jr q l ck :: rest) [].
Proof.
  destruct (run_full_job_search_cases jr q l ck rp w) as (w1 & E1 & H).
  cbv zeta in H.
  destruct (service w _ _) as [[t1|]|e];
    [|eexists _, [], w1; split; [exact H | exact E1]..].
  destruct H as (w2 & E2 & H).
  destruct (service w _ (search_request _)) as [[t2|]|e];
    [destruct (loads _)|..];
    (eexists _, [_], w2; split; [exact H | exact E2]).
Qed.

(** A failed read ends the request before the orchestrator. *)
Lemma search_jobs_read_fails jr q l ck f e w :
  read f = ReadFails e ->
  exists w',
    search_jobs loads render jr q l ck (Some f) w =
    (Ok (JSONResponse 500
           (MessageContent (lit "File reading failed: " ++ exn_str e))), w') /\
    extends w w' [] [].
Proof.
  intros H. exists (snd (new_list [] w)). split; [|apply extends_new_list].
  unfold search_jobs, bind, try_except, upload_read. simpl. now rewrite H.
Qed.

(** Otherwise the handler calls the orchestrator on a list that holds the
    parts of the file stage, and turns its result into the response. *)
Lemma search_jobs_orchestrates jr q l ck rf parts w :
  file_parts rf = Ok parts ->
  exists rp w0,
    extends w w0 [] [] /\ deref w0 rp = parts /\
    search_jobs loads render jr q l ck rf w =
    match run_full_job_search loads jr q l ck rp w0 with
    | (Ok d, w') =>
        match render d with
        | Ok _ => (Ok (JSONResponse 200 (SearchContent d)), w')
        | Raise e =>
            (Ok (HTTPException 500 failure_detail), add_line (log_line e) w')
        end
    | (Raise e, w') =>
        (Ok (HTTPException 500 failure_detail), add_line (log_line e) w')
    end.
Proof.
  intros H. destruct rf as [f|]; simpl in H.
  - destruct (read f) as [data|e] eqn:Hr; [|discriminate].
    injection H as <-.
    set (w0 := snd (new_list [] w)).
    set (parts := if truthy data then [PartBytes data (content_type f)] else []).
    exists (fresh (dom (heap w0))), (snd (new_list parts w0)).
    split; [|split].
    + exact (extends_trans w w0 _ [] [] [] []
               (extends_new_list _ _) (extends_new_list _ _)).
    + apply deref_set_heap_insert.
    + subst w0 parts.
      cbv [search_jobs bind try_except upload_read ret get_gemini_parts
           new_list print log_line lift snd].
      rewrite Hr.
      destruct (truthy data); cbv beta iota;
        (destruct (run_full_job_search _ _ _ _ _ _ _) as [[d|e] w'];
         [now destruct (render d) | reflexivity]).
  - injection H as <-.
    exists (fresh (dom (heap w))), (snd (new_list [] w)).
    split; [apply extends_new_list|]. split; [apply deref_set_heap_insert|].
    cbv [search_jobs bind try_except ret new_list print log_line lift snd].
    destruct (run_full_job_search _ _ _ _ _ _ _) as [[d|e] w'];
      [now destruct (render d) | reflexivity].
Qed.

(** Every way [search_jobs] can go once the file stage has passed. *)
Lemma search_jobs_cases jr q l ck rf parts w :
  file_parts rf = Ok parts ->
  let n := length (calls w) in
  let req1 := keyword_request parts jr q l ck in
  let out := search_jobs loads render jr q l ck rf w in
  let failure : outcome J := HTTPException 500 failure_detail in
  match service w n req1 with
  | Fails e =>
      exists w', out = (Ok failure, w') /\ extends w w' [req1] [log_line e]
  | Reply None =>
      exists w', out = (Ok failure, w') /\
                 extends w w' [req1] [log_line (none_error (lit "split"))]
  | Reply (Some t1) =>
      let kws := keywords_list t1 in
      let query := make_search_query kws q l in
      let req2 := search_request query in
      match service w (S n) req2 with
      | Fails e =>
          exists w', out = (Ok failure, w') /\
                     extends w w' [req1; req2] [log_line e]
      | Reply None =>
          exists w', out = (Ok failure, w') /\
                     extends w w' [req1; req2]
                             [log_line (none_error (lit "strip"))]
      | Reply (Some t2) =>
          match loads (clean_text t2) with
          | Ok j =>
              match render (SearchData query kws j) with
              | Ok _ =>
                  exists w',
                    out = (Ok (JSONResponse 200
                                 (SearchContent (SearchData query kws j))),
                           w') /\
                    extends w w' [req1; req2] []
              | Raise e =>
                  exists w', out = (Ok failure, w') /\
                             extends w w' [req1; req2] [log_line e]
              end
          | Raise e =>
              exists w', out = (Ok failure, w') /\
                         extends w w' [req1; req2] [log_line e]
          end
      end
  end.
Proof.
  intros Hf n req1 out failure.
  destruct (search_jobs_orchestrates jr q l ck rf parts w Hf)
    as (rp & w0 & E0 & Hd & Hout).
  fold out in Hout. clearbody out.
  destruct (run_full_job_search_cases jr q l ck rp w0) as (w1 & E1 & H).
  cbv zeta in H. rewrite Hd in H, E1.
  assert (Hs : service w0 = service w) by apply E0.
  assert (Hn : length (calls w0) = n).
  { destruct E0 as (_ & Hc & _). rewrite Hc, app_nil_r. reflexivity. }
  rewrite Hs, Hn in H. fold req1 in H, E1.
  pose proof (extends_trans _ _ _ _ _ _ _ E0 E1) as E01.
  destruct (service w n req1) as [[t1|]|e].
  - cbv zeta. destruct H as (w2 & E2 & H).
    pose proof (extends_trans _ _ _ _ _ _ _ E0 E2) as E02.
    destruct (service w (S n) _) as [[t2|]|e];
      [destruct (loads _) as [j|e]; [destruct (render _) as [u|e] eqn:Hu|]|..];
      rewrite H in Hout; rewrite ?Hu in Hout;
      eexists; (split; [exact Hout|]);
      first [ exact E02
            | exact (extends_trans _ _ _ _ _ _ _ E02 (extends_add_line _ _)) ].
  - rewrite H in Hout. eexists. split; [exact Hout|].
    exact (extends_trans _ _ _ _ _ _ _ E01 (extends_add_line _ _)).
  - rewrite H in Hout. eexists. split; [exact Hout|].
    exact (extends_trans _ _ _ _ _ _ _ E01 (extends_add_line _ _)).
Qed.

(** A successful run: both answers carry text and the second one parses. *)
Lemma run_full_job_search_ok jr q l ck rp w d w' :
  run_full_job_search loads jr q l ck rp w = (Ok d, w') ->
  exists t1 t2 j,
    service w (length (calls w)) (keyword_request (deref w rp) jr q l ck)
      = Reply (Some t1) /\
    service w (S (length (calls w)))
      (search_request (make_search_query (keywords_list t1) q l))
      = Reply (Some t2) /\
    loads (clean_text t2) = Ok j /\
    d = SearchData (make_search_query (keywords_list t1) q l)
                   (keywords_list t1) j.
Proof.
  intros Hrun.
  destruct (run_full_job_search_cases jr q l ck rp w) as (w1 & E1 & H).
  cbv zeta in H. rewrite Hrun in H.
  destruct (service w _ _) as [[t1|]|e] eqn:H1; [|discriminate..].
  destruct H as (w2 & E2 & H).
  destruct (service w _ (search_request _)) as [[t2|]|e] eqn:H2;
    [|discriminate..].
  destruct (loads _) as [j|e] eqn:Hj; [|discriminate].
  injection H as -> _. now exists t1, t2, j.
Qed.

(** The result of a run whose two calls are answered with [t1] and [t2]. *)
Lemma run_full_job_search_answered jr q l ck rp w t1 t2 :
  service w (length (calls w)) (keyword_request (deref w rp) jr q l ck)
    = Reply (Some t1) ->
  service w (S (length (calls w)))
    (search_request (make_search_query (keywords_list t1) q l))
    = Reply (Some t2) ->
  exists w',
    run_full_job_search loads jr q l ck rp w =
    (match loads (clean_text t2) with
     | Ok j => Ok (SearchData (make_search_query (keywords_list t1) q l)
                              (keywords_list t1) j)
     | Raise e => Raise e
     end, w') /\
    extends w w'
      [keyword_request (deref w rp) jr q l ck;
       search_request (make_search_query (keywords_list t1) q l)] [].
Proof.
  intros H1 H2.
  destruct (run_full_job_search_cases jr q l ck rp w) as (w1 & E1 & H).
  cbv zeta in H. rewrite H1 in H. destruct H as (w2 & E2 & H).
  rewrite H2 in H. exists w2. split; [|exact E2].
  now destruct (loads _).
Qed.

(** Two requests that pass the file stage with the same parts are served
    alike: the same response, the same calls, the same output. *)
Lemma search_jobs_by_parts jr q l ck rf rf' parts w :
  file_parts rf = Ok parts -> file_parts rf' = Ok parts ->
  fst (search_jobs loads render jr q l ck rf w) =
    fst (search_jobs loads render jr q l ck rf' w) /\
  calls (snd (search_jobs loads render jr q l ck rf w)) =
    calls (snd (search_jobs loads render jr q l ck rf' w)) /\
  stdout (snd (search_jobs loads render jr q l ck rf w)) =
    stdout (snd (search_jobs loads render jr q l ck rf' w)).
Proof.
  intros Hf Hf'.
  pose proof (search_jobs_cases jr q l ck rf parts w Hf) as H.
  pose proof (search_jobs_cases jr q l ck rf' parts w Hf') as H'.
  cbv zeta in H, H'.
  destruct (service w _ _) as [[t1|]|e];
    [destruct (service w _ (search_request _)) as [[t2|]|e];
       [destruct (loads _); [destruct (render _)|]|..]|..];
    destruct H as (w1 & -> & _ & Hc & Ho & _);
    destruct H' as (w1' & -> & _ & Hc' & Ho' & _); simpl;
    rewrite Hc, Hc', Ho, Ho'; auto.
Qed.

(** With no file part, no request carries inline data. *)
Lemma search_jobs_text_only jr q l ck rf w :
  file_parts rf = Ok [] ->
  exists o w' rest,
    search_jobs loads render jr q l ck rf w = (Ok o, w') /\
    calls w' =
      calls w ++ Request model_name [PartText (text_prompt jr q l ck)] None
              :: rest /\
    Forall (fun r => Forall (fun p => is_bytes_part p = false) (contents r))
           (Request model_name [PartText (text_prompt jr q l ck)] None :: rest) /\
    (forall d, o = JSONResponse 200 (SearchContent d) ->
       exists t1,
         service w (length (calls w))
           (Request model_name [PartText (text_prompt jr q l ck)] None)
           = Reply (Some t1) /\
         keywords d = keywords_list t1).
Proof.
  intros Hf. pose proof (search_jobs_cases jr q l ck rf [] w Hf) as H.
  cbv zeta in H.
  change (keyword_request [] jr q l ck)
    with (Request model_name [PartText (text_prompt jr q l ck)] None) in H.
  assert (Hall : forall query,
    Forall (fun r => Forall (fun p => is_bytes_part p = false) (contents r))
           [Request model_name [PartText (text_prompt jr q l ck)] None;
            search_request query]).
  { intros query. repeat constructor. }
  assert (Hone :
    Forall (fun r => Forall (fun p => is_bytes_part p = false) (contents r))
           [Request model_name [PartText (text_prompt jr q l ck)] None]).
  { repeat constructor. }
  destruct (service w _ _) as [[t1|]|e];
    [destruct (service w _ (search_request _)) as [[t2|]|e];
       [destruct (loads _) as [j|e]; [destruct (render _) as [u|e]|]|..]|..];
    destruct H as (w' & Hout & _ & Hc & _);
    eexists _, w', _; (split; [exact Hout|]); (split; [exact Hc|]);
    (split; [first [apply Hall | exact Hone]|]);
    intros d Hd; try discriminate.
  injection Hd as <-. now exists t1.
Qed.

End ProgramFacts.

(** * The contract *)

(** ** Step 1: keywords and search query *)

(** C1: whenever [run_full_job_search] returns a result, its [search_query]
    is the keywords of the result joined by single spaces, then the
    qualification, then the location, in that order: the join of the list
    [keywords + [qualification, location]], which with at least one keyword
    reads [keywords-joined ++ " " ++ qualification ++ " " ++ location] and
    with none [qualification ++ " " ++ location]. The keywords are those of
    the text of the first answer, so the query is a function of that text,
    the qualification and the location and of nothing else the caller or
    the service supplies. For the keywords Python, Remote, Backend, the
    qualification BSc and the location Remote it is
    "Python Remote Backend BSc Remote". *)
Theorem C1_search_query_construction
    {J : Type} (loads : str -> res J)
    (job_role qualification location custom_keywords : str)
    (resume_parts : loc) (w w' : world) (d : search_data J) :
  run_full_job_search loads job_role qualification location custom_keywords
                      resume_parts w = (Ok d, w') ->
  search_query d = join (lit " ") (keywords d ++ [qualification; location]) /\
  (keywords d <> [] ->
   search_query d =
   join (lit " ") (keywords d) ++ lit " " ++ qualification ++ lit " " ++ location) /\
  (keywords d = [] ->
   search_query d = qualification ++ lit " " ++ location) /\
  (exists t1,
     service w (length (calls w))
       (keyword_request (deref w resume_parts) job_role qualification location
                        custom_keywords) = Reply (Some t1) /\
     keywords d = keywords_list t1) /\
  make_search_query [lit "Python"; lit "Remote"; lit "Backend"]
                    (lit "BSc") (lit "Remote")
  = lit "Python Remote Backend BSc Remote".
Proof.
  intros Hrun.
  apply run_full_job_search_ok in Hrun as (t1 & t2 & j & H1 & _ & _ & ->).
  cbn [search_query keywords]. repeat split.
  - apply make_search_query_app.
  - intros ->. reflexivity.
  - now exists t1.
Qed.

(** A run with the answers "Python, Remote, Backend" and a fenced empty
    array, the qualification BSc and the location Remote. *)
Lemma C1_search_query_witness :
  let d := SearchData (lit "Python Remote Backend BSc Remote")
                      [lit "Python"; lit "Remote"; lit "Backend"] EmptyArray in
  search_query d = join (lit " ") (keywords d ++ [lit "BSc"; lit "Remote"]).
Proof.
  refine (proj1 (C1_search_query_construction sample_loads
            (lit "Developer") (lit "BSc") (lit "Remote") (lit "")
            1%positive (world_with [] good_service)
            (snd (run_full_job_search sample_loads
                    (lit "Developer") (lit "BSc") (lit "Remote") (lit "")
                    1%positive (world_with [] good_service)))
            _ _)).
  vm_compute. reflexivity.
Defined.

(** The same request, through the handler. *)
Example successful_request :
  fst (search_jobs sample_loads sample_render (lit "Developer") (lit "BSc") (lit "Remote")
         (lit "") None (world_with [] good_service))
  = Ok (JSONResponse 200
          (SearchContent
             (SearchData (lit "Python Remote Backend BSc Remote")
                         [lit "Python"; lit "Remote"; lit "Backend"]
                         EmptyArray))).
Proof. vm_compute. reflexivity. Qed.

(** The same request when the search data cannot be written out: the
    exception of line 130 is caught like any other. *)
Example unwritable_results :
  fst (search_jobs sample_loads refusing_render (lit "Developer") (lit "BSc")
         (lit "Remote") (lit "") None (world_with [] good_service))
  = Ok (HTTPException 500 failure_detail) /\
  stdout (snd (search_jobs sample_loads refusing_render (lit "Developer")
                 (lit "BSc") (lit "Remote") (lit "") None
                 (world_with [] good_service)))
  = [lit "Gemini/Search Error: Out of range float values are not JSON compliant"].
Proof. vm_compute. split; reflexivity. Qed.

(** C2: the keyword list of a text is obtained from the pieces between its
    commas (the pieces joined by commas give the text back, and no piece
    holds a comma): each piece is trimmed, the pieces that are empty once
    trimmed are dropped, and the order is kept. No keyword is empty and none
    starts or ends with whitespace. The text "Python,, Remote," gives
    Python, Remote. *)
Theorem C2_keyword_list (text : str) :
  (exists pieces : list str,
     join [comma] pieces = text /\
     Forall (fun p => comma ∉ p) pieces /\
     keywords_list text = filter (fun k : str => k <> []) (strip <$> pieces)) /\
  Forall (fun k => k <> [] /\ trimmed k) (keywords_list text) /\
  keywords_list (lit "Python,, Remote,") = [lit "Python"; lit "Remote"].
Proof.
  split; [|split].
  - exists (split comma text). split; [apply join_split|].
    split; [apply split_no_sep | apply keywords_list_filter].
  - apply keywords_list_trimmed.
  - reflexivity.
Qed.

(** ** Step 3: the code fence *)

(** A [json] fence with its content on a line of its own: the source parses
    "[]", not the text between the two fences. Removing the 7 first and the 3
    last characters and nothing else would leave the two newlines. *)
Lemma C3_exact_stripping_counterexample :
  startswith (strip fenced_answer) json_fence = true /\
  endswith (strip fenced_answer) fence = true /\
  clean_text_fences_only fenced_answer = [newline] ++ lit "[]" ++ [newline] /\
  clean_text fenced_answer = lit "[]" /\
  clean_text fenced_answer <> clean_text_fences_only fenced_answer.
Proof. repeat split; try reflexivity. discriminate. Qed.

(** C3 (amended): let [t] be the second answer trimmed. If [t] is a [json]
    fence, a body and a closing fence, the text that is parsed is the body
    trimmed; this case comes first, also when [t] is a plain fence as well.
    Otherwise, if [t] is a plain fence, a body and a closing fence, the text
    parsed is the body trimmed. If [t] does not both start and end with a
    fence, it is parsed as it is. A text that starts with the [json] fence
    and ends with a fence always has a body between them (the two never
    overlap); one that starts and ends with a plain fence has a body too,
    unless it is one of the texts of 3, 4 or 5 backticks, where the two
    fences overlap and the text parsed is empty. *)
Theorem C3_fence_stripping (raw : str) :
  (forall body,
     strip raw = json_fence ++ body ++ fence -> clean_text raw = strip body) /\
  (forall body,
     startswith (strip raw) json_fence = false ->
     strip raw = fence ++ body ++ fence -> clean_text raw = strip body) /\
  (startswith (strip raw) fence && endswith (strip raw) fence = false ->
   clean_text raw = strip raw) /\
  (startswith (strip raw) json_fence = true ->
   endswith (strip raw) fence = true ->
   exists body, strip raw = json_fence ++ body ++ fence) /\
  (startswith (strip raw) fence = true ->
   endswith (strip raw) fence = true ->
   (exists body, strip raw = fence ++ body ++ fence) \/
   ((strip raw = lit "```" \/ strip raw = lit "````" \/ strip raw = lit "`````")
    /\ clean_text raw = [])).
Proof.
  split; [|split; [|split; [|split]]].
  - apply clean_text_json.
  - apply clean_text_plain.
  - apply clean_text_bare.
  - apply json_fenced_form.
  - intros Hs He. destruct (fenced_form _ Hs He) as [H|H]; [now left|].
    right. split; [exact H | now apply clean_text_overlap].
Qed.

(** The three cases on sample answers. *)
Example clean_text_samples :
  clean_text (lit "  ```json [1] ```  ") = lit "[1]" /\
  clean_text (lit "``` [1] ```") = lit "[1]" /\
  clean_text (lit " [1] ") = lit "[1]" /\
  clean_text (lit "```json") = lit "```json".
Proof. repeat split. Qed.

(** ** Failures *)

(** C4: when the file stage has passed, both calls are answered with text
    and [json.loads] raises on the second text once its fence is removed,
    the orchestrator raises that very exception, and the request ends with
    the [HTTPException] of status 500 and the fixed detail, which carries
    no search query, keywords or results. Both requests were sent and the
    exception is on the server's output. *)
Theorem C4_invalid_json_fails_request
    {J : Type} (loads : str -> res J)
    (render : search_data J -> res unit)
    (job_role qualification location custom_keywords : str)
    (resume_file : option UploadFile) (parts : list part) (w : world)
    (t1 t2 : str) (e : exn) :
  file_parts resume_file = Ok parts ->
  service w (length (calls w))
    (keyword_request parts job_role qualification location custom_keywords)
    = Reply (Some t1) ->
  service w (S (length (calls w)))
    (search_request (make_search_query (keywords_list t1) qualification location))
    = Reply (Some t2) ->
  loads (clean_text t2) = Raise e ->
  (forall rp, deref w rp = parts ->
     exists w1,
       run_full_job_search loads job_role qualification location
                           custom_keywords rp w = (Raise e, w1)) /\
  exists w',
    search_jobs loads render job_role qualification location custom_keywords
                resume_file w
    = (Ok (HTTPException 500 failure_detail), w') /\
    extends w w'
      [keyword_request parts job_role qualification location custom_keywords;
       search_request
         (make_search_query (keywords_list t1) qualification location)]
      [log_line e].
Proof.
  intros Hf H1 H2 Hj. split.
  - intros rp Hd. rewrite <- Hd in H1.
    destruct (run_full_job_search_answered loads job_role qualification
                location custom_keywords rp w t1 t2 H1 H2) as (w1 & Hrun & _).
    rewrite Hj in Hrun. now exists w1.
  - pose proof (search_jobs_cases loads render job_role qualification location
                  custom_keywords resume_file parts w Hf) as H.
    cbv zeta in H. rewrite H1, H2, Hj in H. exact H.
Qed.

(** A request whose second answer is prose. *)
Lemma C4_invalid_json_witness :
  exists w',
    search_jobs sample_loads sample_render (lit "Developer") (lit "BSc") (lit "Remote")
                (lit "") (Some pdf_file) (world_with [] prose_service)
    = (Ok (HTTPException 500 failure_detail), w') /\
    stdout w' = [lit "Gemini/Search Error: Expecting value"].
Proof.
  destruct (C4_invalid_json_fails_request sample_loads sample_render
              (lit "Developer") (lit "BSc") (lit "Remote") (lit "")
              (Some pdf_file)
              [PartBytes [x25; x50; x44; x46] (lit "application/pdf")]
              (world_with [] prose_service)
              (lit "Python,, Remote,") (lit "Here are some jobs")
              (Exn (lit "JSONDecodeError") (lit "Expecting value"))
              eq_refl eq_refl eq_refl eq_refl)
    as (_ & w' & Hout & _ & _ & Hlog & _).
  exists w'. split; [exact Hout | exact Hlog].
Defined.

(** The detail of a failed request, on a request whose first call raises:
    it is the text of line 136, and not the text "the service failed to
    process the request; refine your query". *)
Lemma C5_message_counterexample :
  fst (search_jobs sample_loads sample_render (lit "Developer") (lit "BSc")
         (lit "Remote") (lit "") None (world_with [] down_service))
  = Ok (HTTPException 500
          (lit "The AI search service failed to process the request. Try refining your query.")) /\
  fst (search_jobs sample_loads sample_render (lit "Developer") (lit "BSc")
         (lit "Remote") (lit "") None (world_with [] down_service))
  <> Ok (HTTPException 500
           (lit "the service failed to process the request; refine your query")).
Proof.
  split; [vm_compute; reflexivity|]. vm_compute. discriminate.
Qed.

(** C5 (amended): once the file stage has passed, the handler runs the
    orchestrator, and whatever exception the orchestrator raises (from
    either call or from [json.loads]), the handler prints "Gemini/Search
    Error: " and the exception on the server's output and ends with the
    [HTTPException] of status 500 whose detail is the fixed text "The AI
    search service failed to process the request. Try refining your
    query.": the response is the same for every exception and holds nothing
    of it. The handler ends with that response or with a 200 response. *)
Theorem C5_failures_are_opaque
    {J : Type} (loads : str -> res J)
    (render : search_data J -> res unit)
    (job_role qualification location custom_keywords : str)
    (resume_file : option UploadFile) (parts : list part) (w : world) :
  file_parts resume_file = Ok parts ->
  (exists rp w0,
     extends w w0 [] [] /\ deref w0 rp = parts /\
     forall e w1,
       run_full_job_search loads job_role qualification location
                           custom_keywords rp w0 = (Raise e, w1) ->
       search_jobs loads render job_role qualification location custom_keywords
                   resume_file w
       = (Ok (HTTPException 500
                (lit "The AI search service failed to process the request. Try refining your query.")),
          add_line (lit "Gemini/Search Error: " ++ exn_str e) w1)) /\
  (exists o w',
     search_jobs loads render job_role qualification location custom_keywords
                 resume_file w = (Ok o, w') /\
     (o = HTTPException 500
            (lit "The AI search service failed to process the request. Try refining your query.") \/
      exists d, o = JSONResponse 200 (SearchContent d))).
Proof.
  intros Hf.
  change (lit "The AI search service failed to process the request. Try refining your query.")
    with failure_detail.
  destruct (search_jobs_orchestrates loads render job_role qualification
              location custom_keywords resume_file parts w Hf)
    as (rp & w0 & E0 & Hd & Hout).
  split.
  - exists rp, w0. split; [exact E0|]. split; [exact Hd|].
    intros e w1 Hrun. now rewrite Hrun in Hout.
  - destruct (run_full_job_search _ _ _ _ _ _ _) as [[d|e] w1];
      [destruct (render d) as [u|e]|];
      eexists _, _; (split; [exact Hout|]); [right; now exists d | now left..].
Qed.

(** A request whose first call raises a quota error: the orchestrator
    raises it, and the handler answers with the fixed detail and prints the
    error. *)
Lemma C5_failures_witness :
  exists w',
    search_jobs sample_loads sample_render (lit "Developer") (lit "BSc")
                (lit "Remote") (lit "") None (world_with [] down_service)
    = (Ok (HTTPException 500
             (lit "The AI search service failed to process the request. Try refining your query.")),
       w') /\
    stdout w' = [lit "Gemini/Search Error: 429 quota"].
Proof.
  destruct (C5_failures_are_opaque sample_loads sample_render
              (lit "Developer") (lit "BSc") (lit "Remote") (lit "")
              None [] (world_with [] down_service) eq_refl)
    as ((rp & w0 & (Hs & Hc & Ho & _) & Hd & H) & _).
  destruct (run_full_job_search_cases sample_loads
              (lit "Developer") (lit "BSc") (lit "Remote") (lit "") rp w0)
    as (w1 & (_ & _ & Ho1 & _) & Hrun).
  cbv zeta in Hrun. rewrite Hs, Hc in Hrun.
  change (service (world_with [] down_service) _ _)
    with (Fails quota_error) in Hrun.
  exists (add_line (lit "Gemini/Search Error: " ++ exn_str quota_error) w1).
  split; [exact (H quota_error w1 Hrun)|].
  simpl. rewrite Ho1, Ho. reflexivity.
Defined.

(** The same two requests, run. *)
Example failure_runs :
  fst (search_jobs sample_loads sample_render (lit "Developer") (lit "BSc") (lit "Remote")
         (lit "") None (world_with [] down_service))
  = Ok (HTTPException 500 failure_detail) /\
  stdout (snd (search_jobs sample_loads sample_render (lit "Developer") (lit "BSc")
                 (lit "Remote") (lit "") None (world_with [] down_service)))
  = [lit "Gemini/Search Error: 429 quota"] /\
  fst (search_jobs sample_loads sample_render (lit "Developer") (lit "BSc") (lit "Remote")
         (lit "") (Some pdf_file) (world_with [] prose_service))
  = Ok (HTTPException 500 failure_detail).
Proof. vm_compute. repeat split. Qed.

(** C6: when reading the resume file raises, the request ends with a
    [JSONResponse] of status 500 whose content is the message "File reading
    failed: " followed by [str(e)]; no call reaches the service and nothing
    is printed. The orchestrator, which always sends a request, has not
    run. *)
Theorem C6_read_failure
    {J : Type} (loads : str -> res J)
    (render : search_data J -> res unit)
    (job_role qualification location custom_keywords : str)
    (f : UploadFile) (e : exn) (w : world) :
  read f = ReadFails e ->
  (exists w',
     search_jobs loads render job_role qualification location custom_keywords
                 (Some f) w
     = (Ok (JSONResponse 500
              (MessageContent (lit "File reading failed: " ++ exn_str e))), w') /\
     calls w' = calls w /\ stdout w' = stdout w) /\
  (forall rp w0,
     calls (snd (run_full_job_search loads job_role qualification location
                                     custom_keywords rp w0)) <> calls w0).
Proof.
  intros Hr. split.
  - destruct (search_jobs_read_fails loads render job_role qualification location
                custom_keywords f e w Hr) as (w' & Hout & _ & Hc & Ho & _).
    exists w'. rewrite Hc, Ho, !app_nil_r. auto.
  - intros rp w0.
    destruct (run_full_job_search_extends loads job_role qualification
                location custom_keywords rp w0)
      as (r & rest & w1 & -> & _ & Hc & _).
    simpl. rewrite Hc. intros H. apply (f_equal length) in H.
    rewrite length_app in H. simpl in H. lia.
Qed.

(** A file whose read raises an [OSError]. *)
Lemma C6_read_failure_witness :
  exists w',
    search_jobs sample_loads sample_render (lit "Developer") (lit "BSc") (lit "Remote")
                (lit "") (Some unreadable_file) (world_with [] good_service)
    = (Ok (JSONResponse 500
             (MessageContent (lit "File reading failed: read failed"))), w') /\
    calls w' = [] /\ stdout w' = [].
Proof.
  exact (proj1 (C6_read_failure sample_loads sample_render
                  (lit "Developer") (lit "BSc") (lit "Remote") (lit "")
                  unreadable_file (Exn (lit "OSError") (lit "read failed"))
                  (world_with [] good_service) eq_refl)).
Defined.

(** ** The resume parts *)

(** C7: for a request with no resume file, the first request sent to the
    service holds the text prompt as its single part, no request of the
    handling holds an inline-data part, and the keywords of a successful
    response are extracted as for any request, from the text of the first
    answer. *)
Theorem C7_no_resume_text_only
    {J : Type} (loads : str -> res J)
    (render : search_data J -> res unit)
    (job_role qualification location custom_keywords : str) (w : world) :
  exists o w' rest,
    search_jobs loads render job_role qualification location custom_keywords None w
    = (Ok o, w') /\
    calls w' =
      calls w ++
      Request model_name
        [PartText (text_prompt job_role qualification location custom_keywords)]
        None :: rest /\
    Forall (fun r => Forall (fun p => is_bytes_part p = false) (contents r))
      (Request model_name
         [PartText (text_prompt job_role qualification location custom_keywords)]
         None :: rest) /\
    (forall d, o = JSONResponse 200 (SearchContent d) ->
       exists t1,
         service w (length (calls w))
           (Request model_name
              [PartText (text_prompt job_role qualification location
                                     custom_keywords)] None)
         = Reply (Some t1) /\
         keywords d = keywords_list t1).
Proof.
  destruct (search_jobs_text_only loads render job_role qualification location
              custom_keywords None w eq_refl)
    as (o & w' & rest & Hout & Hc & Hall & Hk).
  exists o, w', rest. split; [exact Hout|]. split; [exact Hc|].
  split; [exact Hall|]. intros d Hd. exact (Hk d Hd).
Qed.

(** C8: [run_full_job_search] leaves the list object [resume_parts] with the
    elements it had, and every other list object of the caller too; the
    prompt was appended to a copy, as the first request shows. *)
Theorem C8_resume_parts_not_mutated
    {J : Type} (loads : str -> res J)
    (job_role qualification location custom_keywords : str)
    (resume_parts : loc) (w : world) (xs : list part) :
  heap w !! resume_parts = Some xs ->
  exists r rest w',
    run_full_job_search loads job_role qualification location custom_keywords
                        resume_parts w = (r, w') /\
    heap w' !! resume_parts = Some xs /\
    (forall l ys, heap w !! l = Some ys -> heap w' !! l = Some ys) /\
    calls w' =
      calls w ++
      Request model_name
        (xs ++ [PartText (text_prompt job_role qualification location
                                      custom_keywords)]) None :: rest.
Proof.
  intros Hxs.
  destruct (run_full_job_search_extends loads job_role qualification location
              custom_keywords resume_parts w)
    as (r & rest & w' & Hrun & _ & Hc & _ & Hh).
  exists r, rest, w'. split; [exact Hrun|]. split; [now apply Hh|].
  split; [exact Hh|]. rewrite Hc. unfold keyword_request, deref.
  now rewrite Hxs.
Qed.

(** A caller's list with one inline part, before and after the call. *)
Lemma C8_resume_parts_witness :
  exists r rest w',
    run_full_job_search sample_loads (lit "Developer") (lit "BSc")
      (lit "Remote") (lit "") 1%positive
      (world_with [PartBytes [x25; x50; x44; x46] (lit "application/pdf")]
                  good_service) = (r, w') /\
    heap w' !! 1%positive
      = Some [PartBytes [x25; x50; x44; x46] (lit "application/pdf")] /\
    (forall l ys,
       heap (world_with
               [PartBytes [x25; x50; x44; x46] (lit "application/pdf")]
               good_service) !! l = Some ys ->
       heap w' !! l = Some ys) /\
    calls w' =
      [] ++
      Request model_name
        ([PartBytes [x25; x50; x44; x46] (lit "application/pdf")] ++
         [PartText (text_prompt (lit "Developer") (lit "BSc") (lit "Remote")
                                (lit ""))]) None :: rest.
Proof.
  apply (C8_resume_parts_not_mutated sample_loads).
  apply lookup_singleton_eq.
Defined.

(** C9: a resume file that reads as no bytes is handled as no file: for
    empty bytes [get_gemini_parts] returns an empty list, and the response,
    the requests sent and the output are those of the request without a
    file; no request holds an inline-data part. *)
Theorem C9_empty_file_as_no_file
    {J : Type} (loads : str -> res J)
    (render : search_data J -> res unit)
    (job_role qualification location custom_keywords : str)
    (f : UploadFile) (w : world) :
  read f = ReadOk [] ->
  (forall w0, exists l w1,
     get_gemini_parts [] (content_type f) w0 = (Ok l, w1) /\
     deref w1 l = []) /\
  fst (search_jobs loads render job_role qualification location custom_keywords
                   (Some f) w)
  = fst (search_jobs loads render job_role qualification location custom_keywords
                     None w) /\
  calls (snd (search_jobs loads render job_role qualification location
                          custom_keywords (Some f) w))
  = calls (snd (search_jobs loads render job_role qualification location
                            custom_keywords None w)) /\
  stdout (snd (search_jobs loads render job_role qualification location
                           custom_keywords (Some f) w))
  = stdout (snd (search_jobs loads render job_role qualification location
                             custom_keywords None w)) /\
  exists sent,
    calls (snd (search_jobs loads render job_role qualification location
                            custom_keywords (Some f) w)) = calls w ++ sent /\
    Forall (fun r => Forall (fun p => is_bytes_part p = false) (contents r))
           sent.
Proof.
  intros Hr.
  assert (Hf : file_parts (Some f) = Ok []) by (simpl; now rewrite Hr).
  split.
  { intros w0. exists (fresh (dom (heap w0))), (snd (new_list [] w0)).
    split; [reflexivity | apply deref_set_heap_insert]. }
  destruct (search_jobs_by_parts loads render job_role qualification location
              custom_keywords (Some f) None [] w Hf eq_refl)
    as (H1 & H2 & H3).
  repeat (split; [assumption|]).
  destruct (search_jobs_text_only loads render job_role qualification location
              custom_keywords (Some f) w Hf)
    as (o & w' & rest & -> & Hc & Hall & _).
  eexists. split; [exact Hc | exact Hall].
Qed.

(** An upload of no bytes. *)
Lemma C9_empty_file_witness :
  fst (search_jobs sample_loads sample_render (lit "Developer") (lit "BSc") (lit "Remote")
         (lit "") (Some empty_file) (world_with [] good_service))
  = fst (search_jobs sample_loads sample_render (lit "Developer") (lit "BSc") (lit "Remote")
           (lit "") None (world_with [] good_service)).
Proof.
  exact (proj1 (proj2 (C9_empty_file_as_no_file sample_loads sample_render
                         (lit "Developer") (lit "BSc") (lit "Remote") (lit "")
                         empty_file (world_with [] good_service) eq_refl))).
Defined.

(** A file with content does change the first request. *)
Example file_part_is_sent :
  head (calls (snd (search_jobs sample_loads sample_render (lit "Developer") (lit "BSc")
                      (lit "Remote") (lit "") (Some pdf_file)
                      (world_with [] good_service))))
  = Some (keyword_request
            [PartBytes [x25; x50; x44; x46] (lit "application/pdf")]
            (lit "Developer") (lit "BSc") (lit "Remote") (lit "")).
Proof. vm_compute. reflexivity. Qed.

(** ** Determinism *)

(** C10: the result of [run_full_job_search] is a function of the
    qualification, the location and the texts of the two answers: two runs
    with the same arguments whose calls are answered with the same two texts
    end alike, with the same exception of [json.loads] or with the same
    search query, keywords and results. *)
Theorem C10_deterministic_glue
    {J : Type} (loads : str -> res J)
    (job_role qualification location custom_keywords : str)
    (resume_parts : loc) (w w' : world) (t1 t2 : str) :
  service w (length (calls w))
    (keyword_request (deref w resume_parts) job_role qualification location
                     custom_keywords) = Reply (Some t1) ->
  service w (S (length (calls w)))
    (search_request (make_search_query (keywords_list t1) qualification location))
    = Reply (Some t2) ->
  service w' (length (calls w'))
    (keyword_request (deref w' resume_parts) job_role qualification location
                     custom_keywords) = Reply (Some t1) ->
  service w' (S (length (calls w')))
    (search_request (make_search_query (keywords_list t1) qualification location))
    = Reply (Some t2) ->
  fst (run_full_job_search loads job_role qualification location
                           custom_keywords resume_parts w)
  = fst (run_full_job_search loads job_role qualification location
                             custom_keywords resume_parts w') /\
  fst (run_full_job_search loads job_role qualification location
                           custom_keywords resume_parts w)
  = match loads (clean_text t2) with
    | Ok j =>
        Ok (SearchData
              (make_search_query (keywords_list t1) qualification location)
              (keywords_list t1) j)
    | Raise e => Raise e
    end.
Proof.
  intros H1 H2 H1' H2'.
  destruct (run_full_job_search_answered loads job_role qualification
              location custom_keywords resume_parts w t1 t2 H1 H2)
    as (w1 & -> & _).
  destruct (run_full_job_search_answered loads job_role qualification
              location custom_keywords resume_parts w' t1 t2 H1' H2')
    as (w1' & -> & _).
  split; reflexivity.
Qed.

(** Two worlds that differ in everything but the two answers. *)
Lemma C10_deterministic_witness :
  fst (run_full_job_search sample_loads (lit "Developer") (lit "BSc")
         (lit "Remote") (lit "") 1%positive (world_with [] good_service))
  = fst (run_full_job_search sample_loads (lit "Developer") (lit "BSc")
           (lit "Remote") (lit "") 1%positive
           (World {[1%positive := []; 7%positive := [PartText (lit "x")]]}
                  (fun n _ => good_service n (search_request []))
                  [] [lit "earlier output"])).
Proof.
  exact (proj1 (C10_deterministic_glue sample_loads
                  (lit "Developer") (lit "BSc") (lit "Remote") (lit "")
                  1%positive (world_with [] good_service)
                  (World {[1%positive := []; 7%positive := [PartText (lit "x")]]}
                         (fun n _ => good_service n (search_request []))
                         [] [lit "earlier output"])
                  (lit "Python, Remote, Backend") fenced_answer
                  eq_refl eq_refl eq_refl eq_refl)).
Defined.

(** * Further properties of the code *)

(** ** The keyword list (line 61) *)

Section KeywordMore.

Implicit Types (s p k text : str) (ps kws : list str).

Lemma strip_nil_iff p : strip p = [] <-> blank p.
Proof.
  split.
  - intros H. destruct (strip_split p) as (l & r & Hp & Hl & Hr).
    rewrite H in Hp. rewrite Hp. simpl. now apply Forall_app.
  - intros H. rewrite <- (app_nil_r p).
    apply (strip_unique p [] []); [exact H | constructor |].
    split; intros c Hc; discriminate.
Qed.

Lemma split_blank_iff s :
  Forall blank (split comma s) <->
  Forall (fun c => c = comma \/ isspace c = true) s.
Proof.
  induction s as [|a s IH]; simpl.
  - split; intros _; repeat constructor.
  - destruct (N.eqb_spec a comma) as [->|Hne].
    + rewrite !Forall_cons, IH. split.
      * intros [_ H]. split; [now left | exact H].
      * intros [_ H]. split; [constructor | exact H].
    + pose proof (split_not_nil comma s) as Hnn.
      destruct (split comma s) as [|p ps]; [congruence|].
      rewrite Forall_cons in IH. rewrite !Forall_cons, <- IH.
      unfold blank at 1. rewrite Forall_cons. split.
      * intros [[Ha Hp] Hps]. split; [now right | now split].
      * intros [[Ha|Ha] [Hp Hps]]; [congruence|]. now repeat split.
Qed.

Lemma keywords_of_pieces_nil ps :
  flat_map (fun k => if truthy (strip k) then [strip k] else []) ps = [] <->
  Forall blank ps.
Proof.
  induction ps as [|p ps IH]; simpl.
  - split; intros _; constructor.
  - rewrite Forall_cons, <- IH, <- strip_nil_iff.
    destruct (strip p) as [|c k]; simpl.
    + split; [intros H; now split | now intros [_ H]].
    + split; [discriminate | intros [H _]; discriminate].
Qed.

Lemma strip_keeps_out c p : c ∉ p -> c ∉ strip p.
Proof.
  intros H Hin. apply H.
  destruct (strip_split p) as (l & r & Hp & _). rewrite Hp.
  apply elem_of_app. right. apply elem_of_app. now left.
Qed.

Lemma keywords_of_pieces ps :
  flat_map (fun k => if truthy (strip k) then [strip k] else []) ps =
  filter (fun k : str => k <> []) (strip <$> ps).
Proof.
  induction ps as [|p ps IH]; [reflexivity|].
  cbn [flat_map fmap list_fmap]. rewrite filter_cons, IH.
  destruct (strip p) as [|c k]; destruct (decide _) as [H|H]; simpl;
    try reflexivity; [congruence | exfalso; apply H; discriminate].
Qed.

(** The separator ", " is a comma, and a space that pads the next piece. *)
Lemma join_comma_space_padded k kws :
  join [comma] ((space :: k) :: map (cons space) kws)
  = space :: join (lit ", ") (k :: kws).
Proof.
  revert k. induction kws as [|k' kws IH]; intros k; [reflexivity|].
  cbn [map]. rewrite join_cons by discriminate. rewrite IH.
  rewrite (join_cons (lit ", ") k (k' :: kws)) by discriminate.
  change (lit ", ") with [comma; space]. cbn [app]. reflexivity.
Qed.

Lemma join_comma_space k kws :
  join (lit ", ") (k :: kws) = join [comma] (k :: map (cons space) kws).
Proof.
  destruct kws as [|k' kws]; [reflexivity|].
  rewrite join_cons by discriminate. cbn [map].
  rewrite (join_cons [comma]) by discriminate.
  now rewrite join_comma_space_padded.
Qed.

End KeywordMore.

(** X1: the keyword list is empty exactly when the text of the first answer
    holds nothing but commas and whitespace (the empty text included). *)
Theorem X1_no_keywords_iff (text : str) :
  keywords_list text = [] <->
  Forall (fun c => c = comma \/ isspace c = true) text.
Proof.
  unfold keywords_list. rewrite keywords_of_pieces_nil.
  apply split_blank_iff.
Qed.

(** X2: no keyword holds a comma. *)
Theorem X2_keywords_have_no_comma (text : str) :
  Forall (fun k => comma ∉ k) (keywords_list text).
Proof.
  rewrite keywords_list_filter. apply Forall_forall. intros k Hk.
  apply list_elem_of_filter in Hk as [_ Hin].
  apply list_elem_of_fmap in Hin as (p & -> & Hp).
  apply strip_keeps_out.
  pose proof (split_no_sep comma text) as H.
  rewrite Forall_forall in H. now apply H.
Qed.

(** X3: keywords written as the prompt asks for them are read back as they
    were: for keywords that are not empty, have no whitespace at either end
    and hold no comma, the keyword list of their join with ", " is the
    keywords themselves (whitespace inside a keyword is kept). *)
Theorem X3_keywords_round_trip (kws : list str) :
  Forall (fun k => k <> [] /\ trimmed k /\ comma ∉ k) kws ->
  keywords_list (join (lit ", ") kws) = kws.
Proof.
  intros H. destruct kws as [|k kws]; [reflexivity|].
  rewrite join_comma_space. unfold keywords_list.
  rewrite split_join; [|discriminate|].
  - rewrite keywords_of_pieces.
    inversion H as [|? ? (Hne & Ht & _) Hrest]; subst.
    rewrite fmap_cons, filter_cons.
    rewrite (strip_of_trimmed k Ht).
    destruct (decide _) as [_|Hn]; [|contradiction].
    f_equal. clear H Hne Ht.
    induction Hrest as [|k' kws (Hne & Ht & _) _ IH]; [reflexivity|].
    cbn [map]. rewrite fmap_cons, filter_cons.
    assert (Hs : strip (space :: k') = k').
    { apply (strip_unique [space] k' []) in Ht; repeat constructor.
      now rewrite app_nil_r in Ht. }
    rewrite Hs.
    destruct (decide _) as [_|Hn]; [|contradiction].
    f_equal. exact IH.
  - inversion H as [|? ? (_ & _ & Hc) Hrest]; subst.
    constructor; [exact Hc|].
    apply Forall_forall. intros p Hp.
    apply list_elem_of_fmap in Hp as (k' & -> & Hk').
    rewrite Forall_forall in Hrest. destruct (Hrest k' Hk') as (_ & _ & Hc').
    rewrite elem_of_cons. intros [Heq|Hin]; [discriminate | contradiction].
Qed.

(** Two keywords, one with a space inside. *)
Lemma X3_keywords_round_trip_witness :
  keywords_list (join (lit ", ") [lit "Python"; lit "Machine Learning"])
  = [lit "Python"; lit "Machine Learning"].
Proof.
  apply X3_keywords_round_trip.
  constructor; [|constructor; [|constructor]];
    (split; [discriminate|]);
    (split; [|apply (bool_decide_unpack _); vm_compute; exact I]);
    split; intros c Hc; vm_compute in Hc; injection Hc as <-; reflexivity.
Defined.

(** ** The search query (line 62) *)

Lemma join_length (sp : str) (l : list str) :
  l <> [] ->
  length (join sp l) + length sp
  = sum_list (length <$> l) + length l * length sp.
Proof.
  induction l as [|x l IH]; [congruence|]. intros _.
  destruct l as [|y l].
  - simpl. lia.
  - rewrite join_cons by discriminate. rewrite !length_app.
    specialize (IH ltac:(discriminate)).
    rewrite fmap_cons. cbn [sum_list sum_list_with length Nat.mul] in *.
    unfold id in *. lia.
Qed.

(** X4: the search query is as long as the keywords, the qualification and
    the location together, plus one space after each keyword and one between
    qualification and location; so it is never the empty text, whatever the
    inputs. *)
Theorem X4_search_query_length (kws : list str) (qualification location : str) :
  length (make_search_query kws qualification location)
  = sum_list (length <$> kws) + length kws
    + length qualification + 1 + length location /\
  make_search_query kws qualification location <> [].
Proof.
  assert (H : length (make_search_query kws qualification location)
              = sum_list (length <$> kws) + length kws
                + length qualification + 1 + length location).
  { unfold make_search_query.
    pose proof (join_length (lit " ") (kws ++ [qualification; location])) as H.
    rewrite fmap_app, sum_list_with_app, length_app in H.
    change (length (lit " ")) with 1 in H.
    cbn [fmap list_fmap sum_list sum_list_with length] in H.
    assert (Hne : kws ++ [qualification; location] <> [])
      by (destruct kws; discriminate).
    specialize (H Hne). unfold sum_list, id in *. lia. }
  split; [exact H|]. intros Heq. rewrite Heq in H. simpl in H. lia.
Qed.

(** ** The cleaned text (lines 90 to 94) *)

Lemma slice_infix (s : str) (a b : Z) :
  exists l r, s = l ++ slice s a b ++ r.
Proof.
  unfold slice.
  set (m := Z.to_nat (clip (Z.of_nat (length s)) a)).
  set (n := Z.to_nat _).
  exists (take m s), (drop n (drop m s)).
  now rewrite take_drop, take_drop.
Qed.

Lemma strip_infix (s : str) : exists l r, s = l ++ strip s ++ r.
Proof. destruct (strip_split s) as (l & r & H & _). now exists l, r. Qed.

Lemma infix_trans (a b c l1 r1 l2 r2 : str) :
  c = l1 ++ b ++ r1 -> b = l2 ++ a ++ r2 ->
  c = (l1 ++ l2) ++ a ++ (r2 ++ r1).
Proof. intros -> ->. now rewrite <- !app_assoc. Qed.

(** X5: the text handed to [json.loads] never starts or ends with
    whitespace, fenced or not. *)
Theorem X5_clean_text_trimmed (raw : str) : trimmed (clean_text raw).
Proof.
  unfold clean_text.
  destruct (startswith (strip raw) json_fence && endswith (strip raw) fence);
    [apply strip_trimmed|].
  destruct (startswith (strip raw) fence && endswith (strip raw) fence);
    apply strip_trimmed.
Qed.

(** X6: cleaning only removes characters from the two ends of the answer:
    the cleaned text occurs in the answer as one contiguous run, so it is
    never longer than the answer and nothing inside it is changed. *)
Theorem X6_clean_text_is_infix (raw : str) :
  (exists l r, raw = l ++ clean_text raw ++ r) /\
  length (clean_text raw) <= length raw.
Proof.
  assert (H : exists l r, raw = l ++ clean_text raw ++ r).
  { unfold clean_text.
    destruct (strip_infix raw) as (l0 & r0 & H0).
    assert (Hs : forall a b,
              exists l r, raw = l ++ strip (slice (strip raw) a b) ++ r).
    { intros a b.
      destruct (slice_infix (strip raw) a b) as (l1 & r1 & H1).
      destruct (strip_infix (slice (strip raw) a b)) as (l2 & r2 & H2).
      pose proof (infix_trans _ _ _ _ _ _ _ H1 H2) as H12.
      pose proof (infix_trans _ _ _ _ _ _ _ H0 H12) as H012.
      eauto. }
    destruct (startswith (strip raw) json_fence && endswith (strip raw) fence);
      [apply Hs|].
    destruct (startswith (strip raw) fence && endswith (strip raw) fence);
      [apply Hs | eauto]. }
  split; [exact H|].
  destruct H as (l & r & H). rewrite H at 2. rewrite !length_app. lia.
Qed.

(** X13: an answer that holds no backtick is parsed as it is, trimmed: the
    fence removal leaves every unfenced answer alone. *)
Theorem X13_unfenced_answer (raw : str) :
  backtick ∉ raw -> clean_text raw = strip raw.
Proof.
  intros Hb. apply clean_text_bare.
  destruct (startswith (strip raw) fence) eqn:Hs; [|reflexivity].
  exfalso. apply Hb.
  apply startswith_spec in Hs as [r Hr].
  destruct (strip_infix raw) as (l0 & r0 & H0).
  rewrite H0, Hr. apply elem_of_app. right.
  apply elem_of_app. left. apply elem_of_app. left.
  apply elem_of_cons. now left.
Qed.

(** A bare array with whitespace around it. *)
Lemma X13_unfenced_answer_witness :
  clean_text (lit "  [1, 2]  ") = strip (lit "  [1, 2]  ").
Proof.
  apply X13_unfenced_answer.
  apply (bool_decide_unpack _). vm_compute. exact I.
Defined.

(** ** The orchestrator's calls (lines 54 to 87) *)

(** X8: when the first call raises, [run_full_job_search] raises that same
    exception after this one request: there is no retry and no second
    call, and nothing is printed. *)
Theorem X8_first_call_failure
    {J : Type} (loads : str -> res J)
    (job_role qualification location custom_keywords : str)
    (resume_parts : loc) (w : world) (e : exn) :
  service w (length (calls w))
    (keyword_request (deref w resume_parts) job_role qualification location
                     custom_keywords) = Fails e ->
  exists w',
    run_full_job_search loads job_role qualification location custom_keywords
                        resume_parts w = (Raise e, w') /\
    extends w w'
      [keyword_request (deref w resume_parts) job_role qualification location
                       custom_keywords] [].
Proof.
  intros H1.
  destruct (run_full_job_search_cases loads job_role qualification location
              custom_keywords resume_parts w) as (w1 & E1 & H).
  cbv zeta in H. rewrite H1 in H. now exists w1.
Qed.

(** A service that is out of quota. *)
Lemma X8_first_call_failure_witness :
  exists w',
    run_full_job_search sample_loads (lit "Developer") (lit "BSc")
      (lit "Remote") (lit "") 1%positive (world_with [] down_service)
    = (Raise quota_error, w') /\
    extends (world_with [] down_service) w'
      [keyword_request (deref (world_with [] down_service) 1%positive)
         (lit "Developer") (lit "BSc") (lit "Remote") (lit "")] [].
Proof.
  exact (X8_first_call_failure sample_loads
           (lit "Developer") (lit "BSc") (lit "Remote") (lit "")
           1%positive (world_with [] down_service) quota_error eq_refl).
Defined.

(** X9: once the first call is answered with a text, exactly one more
    request is sent, after the first one. It holds a single text part, the
    analysis prompt for the search query, with the search configuration:
    it is a function of the text of the first answer, the qualification and
    the location, and carries none of the resume parts. If that second call
    raises, the run raises the same exception. Nothing is printed. *)
Theorem X9_second_request
    {J : Type} (loads : str -> res J)
    (job_role qualification location custom_keywords : str)
    (resume_parts : loc) (w : world) (t1 : str) :
  service w (length (calls w))
    (keyword_request (deref w resume_parts) job_role qualification location
                     custom_keywords) = Reply (Some t1) ->
  exists r w',
    run_full_job_search loads job_role qualification location custom_keywords
                        resume_parts w = (r, w') /\
    calls w' =
      calls w ++
      [keyword_request (deref w resume_parts) job_role qualification location
                       custom_keywords;
       Request model_name
         [PartText (search_analysis_prompt
                      (make_search_query (keywords_list t1)
                                         qualification location))]
         (Some search_config)] /\
    stdout w' = stdout w /\
    (forall e,
       service w (S (length (calls w)))
         (search_request
            (make_search_query (keywords_list t1) qualification location))
       = Fails e ->
       r = Raise e).
Proof.
  intros H1.
  destruct (run_full_job_search_cases loads job_role qualification location
              custom_keywords resume_parts w) as (w1 & E1 & H).
  cbv zeta in H. rewrite H1 in H. destruct H as (w2 & E2 & H).
  destruct E2 as (_ & Hc & Ho & _). rewrite app_nil_r in Ho.
  destruct (service w (S _) _) as [[t2|]|e] eqn:H2;
    [destruct (loads _) as [j|e]|..];
    eexists _, w2; (split; [exact H|]); (split; [exact Hc|]);
    (split; [exact Ho|]); intros e' He'; congruence.
Qed.

(** A run whose second call is answered too. *)
Lemma X9_second_request_witness :
  exists r w',
    run_full_job_search sample_loads (lit "Developer") (lit "BSc")
      (lit "Remote") (lit "") 1%positive
      (world_with [PartBytes [x25; x50; x44; x46] (lit "application/pdf")]
                  good_service) = (r, w') /\
    last (calls w')
    = Some (Request model_name
              [PartText (search_analysis_prompt
                           (lit "Python Remote Backend BSc Remote"))]
              (Some search_config)).
Proof.
  destruct (X9_second_request sample_loads
              (lit "Developer") (lit "BSc") (lit "Remote") (lit "")
              1%positive
              (world_with
                 [PartBytes [x25; x50; x44; x46] (lit "application/pdf")]
                 good_service)
              (lit "Python, Remote, Backend") eq_refl)
    as (r & w' & Hrun & Hc & _).
  exists r, w'. split; [exact Hrun|]. rewrite Hc. reflexivity.
Defined.

(** ** The endpoint (lines 105 to 137) *)

(** X10: whenever [search_jobs] ends with a response (a [JSONResponse] it
    returns or the [HTTPException] it raises), the request went one of three
    ways: the read of the file raised, and the response is the 500 with the
    read's message, with no request sent and nothing printed; or the
    response is the 200 with search data that could be written out, after
    two requests and with nothing printed; or it is the [HTTPException] of
    status 500 with the fixed detail, after one or two requests and with
    exactly one line printed. In each case the list objects that were live
    before are unchanged. *)
Theorem X10_request_outcomes
    {J : Type} (loads : str -> res J)
    (render : search_data J -> res unit)
    (job_role qualification location custom_keywords : str)
    (resume_file : option UploadFile) (w w' : world) (o : outcome J) :
  search_jobs loads render job_role qualification location custom_keywords
              resume_file w = (Ok o, w') ->
  (exists f e,
     resume_file = Some f /\ read f = ReadFails e /\
     o = JSONResponse 500
           (MessageContent (lit "File reading failed: " ++ exn_str e)) /\
     extends w w' [] []) \/
  (exists d sent,
     o = JSONResponse 200 (SearchContent d) /\ render d = Ok tt /\
     extends w w' sent [] /\ length sent = 2) \/
  (exists e sent,
     o = HTTPException 500 failure_detail /\
     extends w w' sent [log_line e] /\
     1 <= length sent <= 2).
Proof.
  intros Hrun.
  destruct (file_parts resume_file) as [parts|e] eqn:Hf.
  - pose proof (search_jobs_cases loads render job_role qualification
                  location custom_keywords resume_file parts w Hf) as H.
    cbv zeta in H.
    destruct (service w _ _) as [[t1|]|e];
      [destruct (service w _ (search_request _)) as [[t2|]|e];
         [destruct (loads _) as [j|e];
            [destruct (render _) as [[]|e] eqn:Hu|]|..]|..];
      destruct H as (w1 & Hout & E); rewrite Hout in Hrun;
      injection Hrun as <- <-; right;
      first [ left; eexists _, _; split; [reflexivity|];
              split; [exact Hu|]; split; [exact E | reflexivity]
            | right; eexists _, _; split; [reflexivity|];
              split; [exact E | simpl; lia] ].
  - destruct resume_file as [f|]; [|discriminate]. simpl in Hf.
    destruct (read f) as [data|e'] eqn:Hr; [discriminate|].
    injection Hf as ->.
    destruct (search_jobs_read_fails loads render job_role qualification
                location custom_keywords f e w Hr) as (w1 & Hout & E).
    rewrite Hout in Hrun. injection Hrun as <- <-.
    left. now exists f, e.
Qed.

(** The sample request whose second answer is prose: one line printed. *)
Lemma X10_request_outcomes_witness :
  exists e sent,
    extends (world_with [] prose_service)
      (snd (search_jobs sample_loads sample_render (lit "Developer")
              (lit "BSc") (lit "Remote") (lit "") (Some pdf_file)
              (world_with [] prose_service)))
      sent [log_line e] /\
    1 <= length sent <= 2.
Proof.
  destruct (X10_request_outcomes sample_loads sample_render
              (lit "Developer") (lit "BSc") (lit "Remote") (lit "")
              (Some pdf_file) (world_with [] prose_service)
              (snd (search_jobs sample_loads sample_render (lit "Developer")
                      (lit "BSc") (lit "Remote") (lit "") (Some pdf_file)
                      (world_with [] prose_service)))
              (HTTPException 500 failure_detail))
    as [(f & e & _ & _ & Ho & _) | [(d & sent & Ho & _) | (e & sent & _ & E & Hl)]].
  - vm_compute. reflexivity.
  - discriminate Ho.
  - discriminate Ho.
  - now exists e, sent.
Defined.

(** X11: once the file stage has passed, the response is the 200 with
    search data [d] exactly when both calls are answered with text,
    [json.loads] accepts the second text once cleaned, and the response can
    be written out; [d] then holds the query and the keywords of the first
    text and, as its results, the value [json.loads] returned. *)
Theorem X11_success_exactly
    {J : Type} (loads : str -> res J)
    (render : search_data J -> res unit)
    (job_role qualification location custom_keywords : str)
    (resume_file : option UploadFile) (parts : list part) (w : world)
    (d : search_data J) :
  file_parts resume_file = Ok parts ->
  fst (search_jobs loads render job_role qualification location
                   custom_keywords resume_file w)
  = Ok (JSONResponse 200 (SearchContent d))
  <->
  exists t1 t2 j,
    service w (length (calls w))
      (keyword_request parts job_role qualification location custom_keywords)
    = Reply (Some t1) /\
    service w (S (length (calls w)))
      (search_request
         (make_search_query (keywords_list t1) qualification location))
    = Reply (Some t2) /\
    loads (clean_text t2) = Ok j /\
    d = SearchData
          (make_search_query (keywords_list t1) qualification location)
          (keywords_list t1) j /\
    render d = Ok tt.
Proof.
  intros Hf.
  pose proof (search_jobs_cases loads render job_role qualification location
                custom_keywords resume_file parts w Hf) as H.
  cbv zeta in H. split.
  - intros Hout.
    destruct (service w _ _) as [[t1|]|e] eqn:H1;
      [destruct (service w _ (search_request _)) as [[t2|]|e] eqn:H2;
         [destruct (loads _) as [j|e] eqn:Hj;
            [destruct (render _) as [[]|e] eqn:Hu|]|..]|..];
      destruct H as (w' & Heq & _); rewrite Heq in Hout; simpl in Hout;
      try discriminate.
    injection Hout as <-. now exists t1, t2, j.
  - intros (t1 & t2 & j & H1 & H2 & Hj & -> & Hu).
    rewrite H1, H2, Hj, Hu in H. destruct H as (w' & -> & _). reflexivity.
Qed.

(** The sample request that succeeds. *)
Lemma X11_success_witness :
  fst (search_jobs sample_loads sample_render (lit "Developer") (lit "BSc")
         (lit "Remote") (lit "") (Some pdf_file) (world_with [] good_service))
  = Ok (JSONResponse 200
          (SearchContent
             (SearchData (lit "Python Remote Backend BSc Remote")
                         [lit "Python"; lit "Remote"; lit "Backend"]
                         EmptyArray))).
Proof.
  apply (X11_success_exactly sample_loads sample_render
           (lit "Developer") (lit "BSc") (lit "Remote") (lit "")
           (Some pdf_file)
           [PartBytes [x25; x50; x44; x46] (lit "application/pdf")]
           (world_with [] good_service) _ eq_refl).
  exists (lit "Python, Remote, Backend"), fenced_answer, EmptyArray.
  repeat split.
Defined.

(** X12: for a resume file that reads as at least one byte, the first
    request holds two parts, in this order: the bytes with the media type
    the upload declares, then the text prompt. No later request holds an
    inline part: the resume is sent once. *)
Theorem X12_resume_sent_once
    {J : Type} (loads : str -> res J)
    (render : search_data J -> res unit)
    (job_role qualification location custom_keywords : str)
    (f : UploadFile) (data : bytes) (w : world) :
  read f = ReadOk data -> data <> [] ->
  exists o w' rest,
    search_jobs loads render job_role qualification location custom_keywords
                (Some f) w = (Ok o, w') /\
    calls w' =
      calls w ++
      Request model_name
        [PartBytes data (content_type f);
         PartText (text_prompt job_role qualification location
                               custom_keywords)] None :: rest /\
    Forall (fun r => Forall (fun p => is_bytes_part p = false) (contents r))
           rest.
Proof.
  intros Hr Hne.
  assert (Hf : file_parts (Some f) = Ok [PartBytes data (content_type f)]).
  { simpl. rewrite Hr. destruct data; [congruence | reflexivity]. }
  pose proof (search_jobs_cases loads render job_role qualification location
                custom_keywords (Some f) _ w Hf) as H.
  cbv zeta in H.
  destruct (service w _ _) as [[t1|]|e];
    [destruct (service w _ (search_request _)) as [[t2|]|e];
       [destruct (loads _) as [j|e]; [destruct (render _) as [u|e]|]|..]|..];
    destruct H as (w' & Hout & _ & Hc & _);
    eexists _, w', _; (split; [exact Hout|]); (split; [exact Hc|]);
    repeat constructor.
Qed.

(** The sample upload of four bytes. *)
Lemma X12_resume_sent_once_witness :
  exists o w' rest,
    search_jobs sample_loads sample_render (lit "Developer") (lit "BSc") (lit "Remote")
                (lit "") (Some pdf_file) (world_with [] good_service)
    = (Ok o, w') /\
    calls w' =
      calls (world_with [] good_service) ++
      Request model_name
        [PartBytes [x25; x50; x44; x46] (content_type pdf_file);
         PartText (text_prompt (lit "Developer") (lit "BSc") (lit "Remote")
                               (lit ""))] None :: rest /\
    Forall (fun r => Forall (fun p => is_bytes_part p = false) (contents r))
           rest.
Proof.
  apply (X12_resume_sent_once sample_loads sample_render
           (lit "Developer") (lit "BSc") (lit "Remote") (lit "")
           pdf_file [x25; x50; x44; x46] (world_with [] good_service)
           eq_refl).
  discriminate.
Defined.
